(** * AgenticEDA: a shallow embedding of the ingestion, readiness, cleaning,
    export and advisory code (src/app.py, src/utils/{cleaning,eda,llm}.py). *)

From Stdlib Require Import String Ascii List Bool ZArith QArith Lia.
From Stdlib Require Import Numbers.DecimalString Floats.SpecFloat.
Import ListNotations.
Open Scope string_scope.

(** ** Python runtime: exceptions and a small exception monad *)

(** [OSError] carries its errno, its [strerror] and the file name when the
    failing call named one ([open] does, a failed [write] does not);
    [TemplateNotFound] carries the template name and jinja2's message. *)
Inductive py_exc :=
| AttributeError (msg : string)
| OSError (errno : Z) (strerror : string) (filename : option string)
| TemplateNotFound (name : string) (msg : string)
| TemplateError (msg : string)
| APIError (msg : string)
| ParserError (msg : string).

Inductive py_result (A : Type) :=
| Ret (a : A)
| Raise (e : py_exc).
Arguments Ret {A} a.
Arguments Raise {A} e.

Definition py_bind {A B} (m : py_result A) (k : A -> py_result B) : py_result B :=
  match m with
  | Ret a => k a
  | Raise e => Raise e
  end.

Notation "x <- m ;; k" := (py_bind m (fun x => k))
  (at level 61, m at next level, right associativity).

(** ** String helpers *)

(** Decimal rendering of an integer, as Python's [str(int)]. *)
Definition z_str (z : Z) : string := NilEmpty.string_of_int (Z.to_int z).
Definition nat_str (n : nat) : string := z_str (Z.of_nat n).

(** [str(e)] of an exception, as interpolated by f-strings; a file name
    is shown by its [repr], here a path without quote characters. *)
Definition exc_str (e : py_exc) : string :=
  match e with
  | AttributeError m => m
  | OSError n m (Some p) => "[Errno " ++ z_str n ++ "] " ++ m ++ ": '" ++ p ++ "'"
  | OSError n m None => "[Errno " ++ z_str n ++ "] " ++ m
  | TemplateNotFound _ m => m
  | TemplateError m => m
  | APIError m => m
  | ParserError m => m
  end.

(** [str.lower()] on ASCII text. *)
Definition lower_ascii (c : ascii) : ascii :=
  let n := nat_of_ascii c in
  if (65 <=? n)%nat && (n <=? 90)%nat then ascii_of_nat (n + 32) else c.

Fixpoint py_lower (s : string) : string :=
  match s with
  | EmptyString => EmptyString
  | String c s' => String (lower_ascii c) (py_lower s')
  end.

Fixpoint prefixb (p s : string) : bool :=
  match p, s with
  | EmptyString, _ => true
  | String _ _, EmptyString => false
  | String a p', String b s' => Ascii.eqb a b && prefixb p' s'
  end.

(** Python's substring test [p in s]. *)
Fixpoint py_contains (p s : string) : bool :=
  prefixb p s ||
  match s with
  | EmptyString => false
  | String _ s' => py_contains p s'
  end.

(** [sep.join(xs)]. *)
Fixpoint py_join (sep : string) (xs : list string) : string :=
  match xs with
  | [] => ""
  | [x] => x
  | x :: xs' => x ++ sep ++ py_join sep xs'
  end.

(** ** Python floats: IEEE 754 binary64 *)

Definition prec64 : Z := 53.
Definition emax64 : Z := 1024.

Definition fadd (x y : spec_float) : spec_float := SFadd prec64 emax64 x y.
Definition fmul (x y : spec_float) : spec_float := SFmul prec64 emax64 x y.
Definition fdiv (x y : spec_float) : spec_float := SFdiv prec64 emax64 x y.

Definition is_nan (x : spec_float) : bool :=
  match x with
  | S754_nan => true
  | _ => false
  end.

(** [float(z)] for an integer: the nearest double, ties to even. *)
Definition float_of_Z (z : Z) : spec_float := binary_normalize prec64 emax64 z 0 false.

(** The double nearest to [m * 2^e], for literals. *)
Definition fl (m e : Z) : spec_float := binary_normalize prec64 emax64 m e false.

(** ** The data model: a pandas DataFrame *)

(** The dtypes a CSV read can produce (pandas 2). *)
Inductive dtype :=
| Int64
| Float64
| Bool
| Object
| DatetimeNs
| DatetimeNsTz (tz : string).

(** [str(dtype)], which is what [dtype == 'object'] compares against. *)
Definition dtype_name (d : dtype) : string :=
  match d with
  | Int64 => "int64"
  | Float64 => "float64"
  | Bool => "bool"
  | Object => "object"
  | DatetimeNs => "datetime64[ns]"
  | DatetimeNsTz tz => "datetime64[ns, " ++ tz ++ "]"
  end.

(** [select_dtypes(include=['number'])]. *)
Definition is_number (d : dtype) : bool :=
  match d with
  | Int64 | Float64 => true
  | _ => false
  end.

(** A cell value: an int64, a float64 (a NaN float is a missing entry, so
    it is never stored as a value), a string, a bool or a timestamp. *)
Inductive value :=
| VInt (z : Z)
| VFloat (f : spec_float)
| VStr (s : string)
| VBool (b : bool)
| VTime (t : Z).

(** [None] is a missing entry (NaN, None or NaT): [isnull()] holds. *)
Definition cell := option value.

(** A DataFrame: named, typed columns and rows carrying their index label. *)
Record frame := mkFrame {
  columns : list (string * dtype);
  rows : list (Z * list cell)
}.

(** [df.shape] and its [str] as a Python tuple. *)
Definition shape (df : frame) : nat * nat := (length (rows df), length (columns df)).
Definition shape_str (s : nat * nat) : string :=
  "(" ++ nat_str (fst s) ++ ", " ++ nat_str (snd s) ++ ")".

(** [df[col]] by column position. *)
Definition column_values (j : nat) (df : frame) : list cell :=
  map (fun r => nth j (snd r) None) (rows df).

(** [df[col].isnull().sum()]. *)
Definition isnull_sum (c : list cell) : nat :=
  length (filter (fun x => match x with None => true | Some _ => false end) c).

(** Columns enumerated with their position, as [df.columns] iterated. *)
Fixpoint enumerate {A} (n : nat) (l : list A) : list (nat * A) :=
  match l with
  | [] => []
  | x :: t => (n, x) :: enumerate (S n) t
  end.

(** The dtype invariant of a frame: every row spans all columns and every
    present cell of a column has that column's kind of value; int64 and bool
    columns hold no missing entry (pandas would have made them float64 or
    object). *)
Definition cell_fits (d : dtype) (c : cell) : bool :=
  match c, d with
  | None, (Int64 | Bool) => false
  | None, _ => true
  | Some (VInt _), Int64 => true
  | Some (VFloat f), Float64 => negb (is_nan f)
  | Some (VBool _), Bool => true
  | Some (VTime _), (DatetimeNs | DatetimeNsTz _) => true
  | Some _, Object => true
  | _, _ => false
  end.

Fixpoint row_fits (cs : list (string * dtype)) (r : list cell) : bool :=
  match cs, r with
  | [], [] => true
  | (_, d) :: cs', c :: r' => cell_fits d c && row_fits cs' r'
  | _, _ => false
  end.

Definition frame_ok (df : frame) : bool :=
  forallb (fun r => row_fits (columns df) (snd r)) (rows df).

(** ** src/utils/cleaning.py *)

Definition transformation_log := list string.

(** Float equality in pandas' hash tables: IEEE equality (so [0.0] matches
    [-0.0]), and NaN matches NaN. *)
Definition float_eqb (x y : spec_float) : bool :=
  SFeqb x y || (is_nan x && is_nan y).

(** Row equality used by [duplicated()]: NaN matches NaN, floats by value. *)
Definition value_eqb (a b : value) : bool :=
  match a, b with
  | VInt x, VInt y => Z.eqb x y
  | VFloat x, VFloat y => float_eqb x y
  | VStr x, VStr y => String.eqb x y
  | VBool x, VBool y => Bool.eqb x y
  | VTime x, VTime y => Z.eqb x y
  | _, _ => false
  end.

Definition cell_eqb (a b : cell) : bool :=
  match a, b with
  | None, None => true
  | Some x, Some y => value_eqb x y
  | _, _ => false
  end.

Fixpoint row_eqb (r s : list cell) : bool :=
  match r, s with
  | [], [] => true
  | a :: r', b :: s' => cell_eqb a b && row_eqb r' s'
  | _, _ => false
  end.

(** Apply [f] at position [j] (no change out of range). *)
Fixpoint map_nth {A} (j : nat) (f : A -> A) (l : list A) : list A :=
  match l, j with
  | [], _ => []
  | x :: t, O => f x :: t
  | x :: t, S j' => x :: map_nth j' f t
  end.

(** numpy's pairwise summation of a float64 array ([pairwise_sum] in
    loops_utils.h): below 8 elements a running sum from [-0.0]; up to 128,
    eight running lanes over the blocks of 8, combined as
    [((r0+r1)+(r2+r3))+((r4+r5)+(r6+r7))], then the remainder added in
    order; above, the halves split at a multiple of 8 and summed
    recursively. *)
Fixpoint add_lanes (r xs : list spec_float) : list spec_float :=
  match r, xs with
  | a :: r', x :: xs' => fadd a x :: add_lanes r' xs'
  | _, _ => r
  end.

Fixpoint unroll8 (blocks : nat) (r xs : list spec_float) : list spec_float :=
  match blocks with
  | O => r
  | S b => unroll8 b (add_lanes r (firstn 8 xs)) (skipn 8 xs)
  end.

Definition lane (r : list spec_float) (k : nat) : spec_float := nth k r S754_nan.

Definition block_sum (xs : list spec_float) : spec_float :=
  let n := length xs in
  let m := (n - n mod 8)%nat in
  let r := unroll8 (m / 8 - 1) (firstn 8 xs) (skipn 8 xs) in
  let res := fadd (fadd (fadd (lane r 0) (lane r 1)) (fadd (lane r 2) (lane r 3)))
                  (fadd (fadd (lane r 4) (lane r 5)) (fadd (lane r 6) (lane r 7))) in
  fold_left fadd (skipn m xs) res.

(** [fuel] bounds the recursion depth; [pairwise_sum] gives the length,
    more than the halving ever needs. *)
Fixpoint pairwise_sum_fuel (fuel : nat) (xs : list spec_float) : spec_float :=
  let n := length xs in
  if (n <? 8)%nat then fold_left fadd xs (S754_zero true)
  else if (n <=? 128)%nat then block_sum xs
  else match fuel with
       | O => fold_left fadd xs (S754_zero true)
       | S f =>
           let n2 := (n / 2 - (n / 2) mod 8)%nat in
           fadd (pairwise_sum_fuel f (firstn n2 xs)) (pairwise_sum_fuel f (skipn n2 xs))
       end.

Definition pairwise_sum (xs : list spec_float) : spec_float :=
  pairwise_sum_fuel (length xs) xs.

(** The float a cell contributes to the sum: a missing entry is replaced by
    the [0] pandas puts in its place. (Only float64 columns have missing
    entries, so [impute_missing_values] never takes an int64 mean.) *)
Definition cell_float (x : cell) : spec_float :=
  match x with
  | Some (VInt z) => float_of_Z z
  | Some (VFloat f) => f
  | _ => S754_zero false
  end.

(** [df[col].mean()] (pandas' [nanops.nanmean]): the masked array is summed
    by [np.add.reduce] (initial [0.0], then the pairwise sum) and divided by
    the count of present values; NaN when there is none. *)
Definition col_mean (c : list cell) : spec_float :=
  let count := (length c - isnull_sum c)%nat in
  if Nat.eqb count 0 then S754_nan
  else fdiv (fadd (S754_zero false) (pairwise_sum (map cell_float c)))
            (float_of_Z (Z.of_nat count)).

(** [fillna(v)] on one cell; filling with NaN changes nothing. *)
Definition fill_cell (v : spec_float) (x : cell) : cell :=
  match x with
  | None => if is_nan v then None else Some (VFloat v)
  | Some _ => x
  end.

(** [df[col].fillna(v, inplace=True)] for the column at position [j]. *)
Definition fillna_col (j : nat) (v : spec_float) (df : frame) : frame :=
  mkFrame (columns df)
          (map (fun r => (fst r, map_nth j (fill_cell v) (snd r))) (rows df)).

Definition impute_entry (col : string) : string :=
  "df['" ++ col ++ "'].fillna(df['" ++ col ++ "'].mean(), inplace=True)  # Imputed missing values in '"
    ++ col ++ "'".

(** The [for col in numeric_cols] loop, threading the frame and the log. *)
Fixpoint impute_loop (cs : list (nat * (string * dtype))) (df : frame)
    (log : transformation_log) : frame * transformation_log :=
  match cs with
  | [] => (df, log)
  | (j, (col, _)) :: cs' =>
      if (0 <? isnull_sum (column_values j df))%nat then
        impute_loop cs' (fillna_col j (col_mean (column_values j df)) df)
                    (app log [impute_entry col])
      else impute_loop cs' df log
  end.

Definition numeric_cols (df : frame) : list (nat * (string * dtype)) :=
  filter (fun p => is_number (snd (snd p))) (enumerate 0 (columns df)).

Definition impute_missing_values (df : frame) (log : transformation_log)
    : frame * transformation_log :=
  impute_loop (numeric_cols df) df log.

(** [df.drop_duplicates(inplace=True)]: keep a row unless it equals a row
    already kept; index labels travel with their rows. *)
Fixpoint dedup_first (seen : list (list cell)) (rs : list (Z * list cell))
    : list (Z * list cell) :=
  match rs with
  | [] => []
  | (i, r) :: t =>
      if existsb (row_eqb r) seen then dedup_first seen t
      else (i, r) :: dedup_first (r :: seen) t
  end.

Definition drop_entry (before after : nat * nat) : string :=
  "df.drop_duplicates(inplace=True)  # Dropped duplicates. Shape from "
    ++ shape_str before ++ " to " ++ shape_str after.

Definition drop_duplicates (df : frame) (log : transformation_log)
    : frame * transformation_log :=
  let initial_shape := shape df in
  let df' := mkFrame (columns df) (dedup_first [] (rows df)) in
  (df', app log [drop_entry initial_shape (shape df')]).

(** Sample data used by the examples and witnesses. *)
Definition sample : frame :=
  mkFrame [("id", Int64); ("value", Float64); ("name", Object)]
    [ (0%Z, [Some (VInt 1); Some (VFloat (fl 10 0)); Some (VStr "a")]);
      (1%Z, [Some (VInt 2); None; Some (VStr "b")]);
      (2%Z, [Some (VInt 1); Some (VFloat (fl 10 0)); Some (VStr "a")]);
      (3%Z, [Some (VInt 3); Some (VFloat (fl 5 (-1))); None]) ].

Example sample_ok : frame_ok sample = true.
Proof. reflexivity. Qed.

(** The mean of [10, 10, 2.5] is exactly [7.5 = 15 * 2^-1]. *)
Example impute_sample :
  impute_missing_values sample [] =
  (mkFrame (columns sample)
    [ (0%Z, [Some (VInt 1); Some (VFloat (fl 10 0)); Some (VStr "a")]);
      (1%Z, [Some (VInt 2); Some (VFloat (fl 15 (-1))); Some (VStr "b")]);
      (2%Z, [Some (VInt 1); Some (VFloat (fl 10 0)); Some (VStr "a")]);
      (3%Z, [Some (VInt 3); Some (VFloat (fl 5 (-1))); None]) ],
   ["df['value'].fillna(df['value'].mean(), inplace=True)  # Imputed missing values in 'value'"]).
Proof. vm_compute. reflexivity. Qed.

Example drop_sample :
  snd (drop_duplicates sample []) =
  ["df.drop_duplicates(inplace=True)  # Dropped duplicates. Shape from (4, 3) to (3, 3)"].
Proof. reflexivity. Qed.

(** ** src/utils/eda.py *)

(** Python's [format(x, '.1f')]: the exact binary value of [x] rounded to
    one decimal, ties to even; the sign is kept (also on [-0.0]), and NaN
    and the infinities print as [nan], [inf] and [-inf]. *)
Definition round_half_even (q : Q) : Z :=
  let n := Qnum q in
  let d := Zpos (Qden q) in
  let fl := (n / d)%Z in
  match Z.compare (2 * (n - fl * d))%Z d with
  | Lt => fl
  | Gt => (fl + 1)%Z
  | Eq => if Z.even fl then fl else (fl + 1)%Z
  end.

(** The value [m * 2^e] of a finite float's magnitude. *)
Definition float_mag (m : positive) (e : Z) : Q :=
  match e with
  | Z0 => inject_Z (Zpos m)
  | Zpos _ => inject_Z (Zpos m * 2 ^ e)
  | Zneg p => Zpos m # Pos.pow 2 p
  end.

Definition digits_1f (q : Q) : string :=
  let n := round_half_even (Qred (q * 10)) in
  z_str (n / 10) ++ "." ++ z_str (n mod 10).

Definition format_1f (x : spec_float) : string :=
  match x with
  | S754_nan => "nan"
  | S754_infinity s => if s then "-inf" else "inf"
  | S754_zero s => (if s then "-" else "") ++ "0.0"
  | S754_finite s m e => (if s then "-" else "") ++ digits_1f (float_mag m e)
  end.

Example format_1f_50 : format_1f (fl 50 0) = "50.0".
Proof. reflexivity. Qed.
Example format_1f_third : format_1f (fdiv (fl 100 0) (fl 3 0)) = "33.3".
Proof. vm_compute. reflexivity. Qed.
(** One missing entry in 2000 rows: [1/2000*100] is the double just
    above [0.05], printed as [0.1]. *)
Example format_1f_one_in_2000 :
  format_1f (fmul (fdiv (float_of_Z 1) (float_of_Z 2000)) (float_of_Z 100)) = "0.1".
Proof. vm_compute. reflexivity. Qed.

(** [df.isnull().mean()] for one column: the count of missing entries over
    the number of rows, as a float division; NaN on an empty frame. *)
Definition missing_frac (j : nat) (df : frame) : spec_float :=
  match rows df with
  | [] => S754_nan
  | _ => fdiv (float_of_Z (Z.of_nat (isnull_sum (column_values j df))))
              (float_of_Z (Z.of_nat (length (rows df))))
  end.

(** [pct > 0]; a comparison with NaN is false. *)
Definition pct_gt0 (p : spec_float) : bool := SFltb (S754_zero false) p.

(** [f"...{pct*100:.1f}%..."]: the product is itself a rounded float. *)
Definition missing_msg (col : string) (pct : spec_float) : string :=
  "Column '" ++ col ++ "' has " ++ format_1f (fmul pct (float_of_Z 100)) ++ "% missing values.".

Definition encoding_note (col : string) : string :=
  "Column '" ++ col ++ "' is categorical/text type and may need encoding.".

Definition datetime_note (col : string) : string :=
  "Column '" ++ col ++ "' is a datetime and may need feature engineering.".

Definition decision_tree_note : string :=
  "Decision Trees can handle both numerical and categorical data.".

Definition ssl_note : string :=
  "Self-supervised learning typically requires a large amount of unlabeled data.".

Definition missing_messages (df : frame) : list string :=
  flat_map (fun p =>
      let pct := missing_frac (fst p) df in
      if pct_gt0 pct then [missing_msg (fst (snd p)) pct] else [])
    (enumerate 0 (columns df)).

Definition dtype_messages (df : frame) : list string :=
  flat_map (fun p =>
      if String.eqb (dtype_name (snd p)) "object" then [encoding_note (fst p)]
      else if String.eqb (dtype_name (snd p)) "datetime64[ns]" then [datetime_note (fst p)]
      else [])
    (columns df).

Definition task_messages (ml_task : string) : list string :=
  if String.eqb ml_task "Decision Tree" then [decision_tree_note]
  else if String.eqb ml_task "Self-supervised Learning" then [ssl_note]
  else [].

Definition check_ml_readiness (df : frame) (ml_task : string) : list string :=
  (missing_messages df ++ dtype_messages df ++ task_messages ml_task)%list.

Example readiness_sample :
  check_ml_readiness sample "Other" =
  ["Column 'value' has 25.0% missing values.";
   "Column 'name' has 25.0% missing values.";
   "Column 'name' is categorical/text type and may need encoding."].
Proof. vm_compute. reflexivity. Qed.

(** One missing entry in 2000 rows: the fraction [0.0005] is a double just
    above it, and so is its product with 100, which rounds up. *)
Example readiness_one_in_2000 :
  missing_msg "x" (fdiv (float_of_Z 1) (float_of_Z 2000))
  = "Column 'x' has 0.1% missing values.".
Proof. vm_compute. reflexivity. Qed.

(** The report libraries: [df.describe(include='all').to_html(...)],
    jinja2's parsing of a template source (inside [env.get_template]) and
    [template.render(...)]; each may raise. *)
Record report_libs := mkReportLibs {
  describe_html : frame -> py_result string;
  compile_template : string -> py_result string;
  render_template : string -> string -> string -> list string -> py_result string
}.

(** How writing a path the process may not write fails: [open] raises, or
    the file is created (or emptied) and the write stops after [kept]
    characters, as when the disk fills up. *)
Inductive write_fault :=
| OpenFails (errno : Z) (strerror : string)
| WriteFails (kept : nat) (errno : Z) (strerror : string).

(** The files visible to the process, relative to its working directory
    [cwd]; the paths it may write; and how writing the others fails. *)
Record fs := mkFs {
  cwd : string;
  files : list (string * string);
  writable : string -> bool;
  fault : string -> write_fault
}.

Definition read_file (p : string) (s : fs) : option string :=
  match find (fun e => String.eqb (fst e) p) (files s) with
  | Some (_, c) => Some c
  | None => None
  end.

Definition put_file (p c : string) (s : fs) : fs :=
  mkFs (cwd s) ((p, c) :: files s) (writable s) (fault s).

(** [with open(p, "w") as f: f.write(c)] (and [df.to_csv(p)]): the outcome
    and the files afterwards, which a failed write leaves changed. *)
Definition write_file (p c : string) (s : fs) : py_result unit * fs :=
  if writable s p then (Ret tt, put_file p c s)
  else match fault s p with
       | OpenFails n m => (Raise (OSError n m (Some p)), s)
       | WriteFails k n m => (Raise (OSError n m None), put_file p (substring 0 k c) s)
       end.

Definition template_dir : string := "templates".

Definition ends_with_slash (a : string) : bool :=
  match String.get (String.length a - 1) a with
  | Some c => Ascii.eqb c "/"%char
  | None => false
  end.

(** [os.path.join(a, b)] for a relative [b]. *)
Definition path_join (a b : string) : string :=
  if String.eqb a "" then b
  else if ends_with_slash a then a ++ b else a ++ "/" ++ b.

(** jinja2's message for a template its [FileSystemLoader] (one search
    path) cannot find. *)
Definition not_found_msg (name searchpath : string) : string :=
  "'" ++ name ++ "' not found in search path: '" ++ searchpath ++ "'".

(** [generate_eda_report]: [env.get_template] reads and parses the
    template, then the summary is built and the template rendered. *)
Definition generate_eda_report (lib : report_libs) (df : frame)
    (log : transformation_log) (s : fs) : py_result string :=
  let searchpath := path_join (cwd s) template_dir in
  match read_file (template_dir ++ "/report_template.html") s with
  | None => Raise (TemplateNotFound "report_template.html"
                     (not_found_msg "report_template.html" searchpath))
  | Some src =>
      template <- compile_template lib src ;;
      summary_html <- describe_html lib df ;;
      render_template lib template "EDA Report" summary_html log
  end.

(** ** src/app.py *)

Definition nl : string := String (ascii_of_nat 10) EmptyString.

(** [datetime.now().strftime(...)] in the two formats the exports use. *)
Record timestamp := mkTimestamp {
  ts_human : string;  (* "%Y-%m-%d %H:%M:%S" *)
  ts_file : string    (* "%Y%m%d_%H%M%S" *)
}.

Definition script_header (now : timestamp) : list string :=
  [ "# Transformation Script";
    "# Generated on: " ++ ts_human now;
    "";
    "import pandas as pd";
    "";
    "def transform_data(df):";
    "    # Transformation steps applied" ].

Definition script_lines (now : timestamp) (log : transformation_log) : list string :=
  app (script_header now) (app (map (fun step => String.append "    " step) log) ["    return df"]).

Definition script_content (now : timestamp) (log : transformation_log) : string :=
  py_join nl (script_lines now log).

Definition script_path : string := "export/transformation_script.py".

Definition export_transformation_script (now : timestamp) (log : transformation_log)
    (s : fs) : py_result string * fs :=
  let '(r, s') := write_file script_path (script_content now log) s in
  (py_bind r (fun _ => Ret script_path), s').

Definition report_path (now : timestamp) : string :=
  "export/eda_report_" ++ ts_file now ++ ".html".

Definition export_eda_report (lib : report_libs) (df : frame)
    (log : transformation_log) (now : timestamp) (s : fs) : py_result string * fs :=
  match generate_eda_report lib df log s with
  | Raise e => (Raise e, s)
  | Ret report_html =>
      let '(r, s') := write_file (report_path now) report_html s in
      (py_bind r (fun _ => Ret (report_path now)), s')
  end.

Definition csv_export_path (now : timestamp) : string :=
  "export/cleaned_data_" ++ ts_file now ++ ".csv".

(** The body of the "Export Cleaned Data as CSV" button; [to_csv] is
    [df.to_csv(..., index=False)]'s text. *)
Definition export_csv (to_csv : frame -> string) (df : frame) (now : timestamp)
    (s : fs) : py_result string * fs :=
  let '(r, s') := write_file (csv_export_path now) (to_csv df) s in
  (py_bind r (fun _ => Ret (csv_export_path now)), s').

(** Messages shown by [st.info], [st.warning], [st.error], [st.success]. *)
Inductive notice :=
| Info (s : string)
| Warning (s : string)
| Error (s : string)
| Success (s : string).

(** The session state one rerun of [main] works on. *)
Record app_state := mkApp {
  st_df : frame;
  st_log : transformation_log;
  st_fs : fs;
  st_ui : list notice
}.


Inductive export_action := ExportCsv | ExportScript | ExportReport.

(** The body of each export button, before [main]'s handler. *)
Definition export_body (lib : report_libs) (to_csv : frame -> string) (now : timestamp)
    (a : export_action) (st : app_state) : py_result string * fs :=
  match a with
  | ExportCsv => export_csv to_csv (st_df st) now (st_fs st)
  | ExportScript => export_transformation_script now (st_log st) (st_fs st)
  | ExportReport => export_eda_report lib (st_df st) (st_log st) now (st_fs st)
  end.



(** The file each export writes, and the text it writes there. *)
Definition export_path (now : timestamp) (a : export_action) : string :=
  match a with
  | ExportCsv => csv_export_path now
  | ExportScript => script_path
  | ExportReport => report_path now
  end.

Definition export_text (lib : report_libs) (to_csv : frame -> string) (now : timestamp)
    (a : export_action) (st : app_state) : py_result string :=
  match a with
  | ExportCsv => Ret (to_csv (st_df st))
  | ExportScript => Ret (script_content now (st_log st))
  | ExportReport => generate_eda_report lib (st_df st) (st_log st) (st_fs st)
  end.

(** *** Ingestion (the first part of [main]) *)

(** The uploaded file: its bytes and the read position. *)
Record upload := mkUpload {
  ubuf : string;
  upos : nat
}.

Definition seek0 (f : upload) : upload := mkUpload (ubuf f) 0.

Definition is_date_like (col : string) : bool := py_contains "date" (py_lower col).

Definition date_columns_of (df : frame) : list string :=
  filter is_date_like (map fst (columns df)).

Section Ingestion.
(** [pd.read_csv(text, low_memory=False, parse_dates=hint)] ([None]: no
    [parse_dates] argument) and Python's [str] of a cell. *)
Variable parse_csv : string -> option (list string) -> py_result frame.
Variable py_str : cell -> string.

Definition read_csv (f : upload) (hint : option (list string))
    : py_result (frame * upload) :=
  df <- parse_csv (substring (upos f) (String.length (ubuf f)) (ubuf f)) hint ;;
  Ret (df, mkUpload (ubuf f) (String.length (ubuf f))).

(** [df[col] = df[col].astype(str)] for the column at position [j]. *)
Definition astype_str (j : nat) (df : frame) : frame :=
  mkFrame (map_nth j (fun p => (fst p, Object)) (columns df))
          (map (fun r => (fst r, map_nth j (fun c => Some (VStr (py_str c))) (snd r)))
               (rows df)).

Definition object_cols (df : frame) : list (nat * (string * dtype)) :=
  filter (fun p => String.eqb (dtype_name (snd (snd p))) "object")
         (enumerate 0 (columns df)).

Definition coerce_text_columns (date_columns : list string) (df : frame) : frame :=
  fold_left (fun acc p =>
      if negb (existsb (String.eqb (fst (snd p))) date_columns)
      then astype_str (fst p) acc else acc)
    (object_cols df) df.

Definition ingest (f : upload) : py_result (frame * list notice) :=
  r0 <- read_csv f None ;;
  let f2 := seek0 (snd r0) in
  let date_columns := date_columns_of (fst r0) in
  match date_columns with
  | [] =>
      r1 <- read_csv f2 None ;;
      Ret (coerce_text_columns date_columns (fst r1),
           [Warning "No date columns detected in the dataset"])
  | _ =>
      r1 <- read_csv f2 (Some date_columns) ;;
      Ret (coerce_text_columns date_columns (fst r1),
           [Info ("Date parsing applied to columns: " ++ py_join ", " date_columns)])
  end.
End Ingestion.

(** ** src/utils/llm.py *)

Definition env := list (string * string).

(** [os.getenv(k)]. *)
Definition os_getenv (e : env) (k : string) : option string :=
  match find (fun p => String.eqb (fst p) k) e with
  | Some (_, v) => Some v
  | None => None
  end.

(** Attribute lookup on the [os] module for its environment reader: the
    module defines [getenv]; any other name raises AttributeError. *)
Definition os_getattr (attr : string) : py_result (env -> string -> option string) :=
  if String.eqb attr "getenv" then Ret os_getenv
  else Raise (AttributeError ("module 'os' has no attribute '" ++ attr ++ "'")).

Definition is_space (c : ascii) : bool :=
  let n := nat_of_ascii c in
  (n =? 32)%nat || (n =? 9)%nat || (n =? 10)%nat || (n =? 13)%nat.

Fixpoint lstrip (s : string) : string :=
  match s with
  | String c s' => if is_space c then lstrip s' else s
  | EmptyString => EmptyString
  end.

Fixpoint rev_str (s : string) (acc : string) : string :=
  match s with
  | String c s' => rev_str s' (String c acc)
  | EmptyString => acc
  end.

(** [str.strip()]. *)
Definition py_strip (s : string) : string :=
  rev_str (lstrip (rev_str (lstrip s) EmptyString)) EmptyString.

Definition key_not_set_msg : string :=
  "OpenAI API key not set. Please set the OPENAI_API_KEY environment variable.".

Section Advisory.
(** [client.chat.completions.create(...)] with the key, the prompt and
    [max_tokens]; it answers with the message content or raises. *)
Variable chat_create : string -> string -> nat -> py_result string.

Definition cleaning_prompt (data_summary ml_task : string) : string :=
  "Given the following data summary:" ++ nl ++ nl ++ data_summary ++ nl ++ nl
  ++ "What data cleaning steps would you recommend to prepare the data for a machine learning task?"
  ++ "And given that the selected ML task is: " ++ ml_task ++ nl ++ nl.

Definition checks_prompt (data_summary ml_task : string) : string :=
  "Given the following data summary:" ++ nl ++ nl ++ data_summary ++ nl ++ nl
  ++ "And given that the selected ML task is: " ++ ml_task ++ nl ++ nl
  ++ "Please suggest additional visualizations or checks that should be performed to ensure the dataset is ready for the ML task. "
  ++ "Provide complete, runnable Python code that defines a function named 'additional_checks(df)' which, when executed, produces these visualizations or checks. "
  ++ "Include necessary imports (e.g., matplotlib and seaborn) and ensure the code is self-contained.".

Definition get_cleaning_suggestions (e : env) (data_summary ml_task : string)
    : py_result string :=
  get_env <- os_getattr "get_env" ;;
  match get_env e "OPEN_AI_KEY" with
  | None | Some EmptyString => Ret key_not_set_msg
  | Some key =>
      match chat_create key (cleaning_prompt data_summary ml_task) 150 with
      | Ret content => Ret (py_strip content)
      | Raise ex => Ret ("Error fetching LLM suggestions: " ++ exc_str ex)
      end
  end.

Definition get_additional_checks (e : env) (data_summary ml_task : string)
    : py_result string :=
  get_env <- os_getattr "get_env" ;;
  match get_env e "OPEN_AI_KEY" with
  | None | Some EmptyString => Ret key_not_set_msg
  | Some key =>
      match chat_create key (checks_prompt data_summary ml_task) 300 with
      | Ret content => Ret (py_strip content)
      | Raise ex => Ret ("Error fetching additional checks: " ++ exc_str ex)
      end
  end.
End Advisory.

(** * Properties *)

(** ** Duplicate removal *)

(** The spec's rule, phrased over all earlier rows: a row is kept iff no
    earlier row (kept or not) equals it. *)
Fixpoint keep_first_occurrences (earlier : list (list cell)) (rs : list (Z * list cell))
    : list (Z * list cell) :=
  match rs with
  | [] => []
  | (i, r) :: t =>
      if existsb (row_eqb r) earlier then keep_first_occurrences (r :: earlier) t
      else (i, r) :: keep_first_occurrences (r :: earlier) t
  end.

Inductive subseq {A} : list A -> list A -> Prop :=
| subseq_nil : subseq [] []
| subseq_skip x l l' : subseq l l' -> subseq l (x :: l')
| subseq_keep x l l' : subseq l l' -> subseq (x :: l) (x :: l').

(** What [float_eqb] identifies: the two zeros, NaN with NaN, and floats
    with the same sign, mantissa and exponent. *)
Definition float_same (x y : spec_float) : Prop :=
  match x, y with
  | S754_zero _, S754_zero _ => True
  | S754_nan, S754_nan => True
  | S754_infinity s, S754_infinity t => s = t
  | S754_finite s m e, S754_finite t n f => s = t /\ m = n /\ e = f
  | _, _ => False
  end.

Ltac close_same := split; intros H; try discriminate; try tauto;
  try (destruct H; discriminate); auto.

Lemma float_eqb_same x y : float_eqb x y = true <-> float_same x y.
Proof.
  unfold float_eqb, SFeqb.
  destruct x as [s|s| |s m e], y as [t|t| |t n f]; try destruct s; try destruct t; simpl;
    try (close_same; fail);
    rewrite orb_false_r; change (PosDef.Pos.compare_cont Eq m n) with (Pos.compare m n);
    destruct (Z.compare_spec e f) as [<-|Hl|Hl]; simpl;
    try (split; [discriminate | intros [_ [_ H]]; lia]);
    destruct (Pos.compare_spec m n) as [<-|Hm|Hm]; simpl;
    try (split; [discriminate | intros [_ [H _]]; subst; lia]); tauto.
Qed.

Lemma float_eqb_refl x : float_eqb x x = true.
Proof. apply float_eqb_same. destruct x; simpl; auto. Qed.

Lemma float_eqb_sym x y : float_eqb x y = float_eqb y x.
Proof.
  apply eq_true_iff_eq. rewrite !float_eqb_same.
  destruct x, y; simpl; intuition congruence.
Qed.

Lemma float_eqb_trans x y z :
  float_eqb x y = true -> float_eqb y z = true -> float_eqb x z = true.
Proof.
  rewrite !float_eqb_same. destruct x, y, z; simpl; intuition congruence.
Qed.

Lemma value_eqb_refl v : value_eqb v v = true.
Proof.
  destruct v; simpl.
  - apply Z.eqb_refl.
  - apply float_eqb_refl.
  - apply String.eqb_refl.
  - apply Bool.eqb_reflx.
  - apply Z.eqb_refl.
Qed.

Lemma value_eqb_sym a b : value_eqb a b = value_eqb b a.
Proof.
  destruct a, b; simpl; try reflexivity.
  - apply Z.eqb_sym.
  - apply float_eqb_sym.
  - apply String.eqb_sym.
  - destruct b, b0; reflexivity.
  - apply Z.eqb_sym.
Qed.

Lemma value_eqb_trans a b c :
  value_eqb a b = true -> value_eqb b c = true -> value_eqb a c = true.
Proof.
  destruct a, b, c; simpl; try discriminate; intros H1 H2.
  - apply Z.eqb_eq in H1, H2. subst. apply Z.eqb_refl.
  - eapply float_eqb_trans; eauto.
  - apply String.eqb_eq in H1, H2. subst. apply String.eqb_refl.
  - apply Bool.eqb_prop in H1, H2. subst. apply Bool.eqb_reflx.
  - apply Z.eqb_eq in H1, H2. subst. apply Z.eqb_refl.
Qed.

Lemma cell_eqb_refl c : cell_eqb c c = true.
Proof. destruct c; simpl; auto using value_eqb_refl. Qed.

Lemma cell_eqb_sym a b : cell_eqb a b = cell_eqb b a.
Proof. destruct a, b; simpl; auto using value_eqb_sym. Qed.

Lemma cell_eqb_trans a b c :
  cell_eqb a b = true -> cell_eqb b c = true -> cell_eqb a c = true.
Proof. destruct a, b, c; simpl; try discriminate; eauto using value_eqb_trans. Qed.

Lemma row_eqb_refl r : row_eqb r r = true.
Proof. induction r; simpl; auto. now rewrite cell_eqb_refl. Qed.

Lemma row_eqb_sym r s : row_eqb r s = row_eqb s r.
Proof.
  revert s; induction r; destruct s; simpl; auto.
  now rewrite cell_eqb_sym, IHr.
Qed.

Lemma row_eqb_trans r s t :
  row_eqb r s = true -> row_eqb s t = true -> row_eqb r t = true.
Proof.
  revert s t; induction r; destruct s, t; simpl; try discriminate; auto.
  rewrite !andb_true_iff. intros [H1 H2] [H3 H4]. eauto using cell_eqb_trans.
Qed.

(** Rows none of which equals a row seen before it. *)
Fixpoint distinct_from (seen : list (list cell)) (rs : list (Z * list cell)) : Prop :=
  match rs with
  | [] => True
  | (_, r) :: t => existsb (row_eqb r) seen = false /\ distinct_from (r :: seen) t
  end.

Lemma dedup_first_distinct seen rs : distinct_from seen (dedup_first seen rs).
Proof.
  revert seen; induction rs as [|[i r] t IH]; intros seen; simpl; auto.
  destruct (existsb (row_eqb r) seen) eqn:E; simpl; auto.
Qed.

Lemma dedup_first_id seen rs : distinct_from seen rs -> dedup_first seen rs = rs.
Proof.
  revert seen; induction rs as [|[i r] t IH]; intros seen; simpl; auto.
  intros [H1 H2]. rewrite H1. f_equal. auto.
Qed.

Lemma dedup_first_idem rs : dedup_first [] (dedup_first [] rs) = dedup_first [] rs.
Proof. apply dedup_first_id, dedup_first_distinct. Qed.

Lemma dedup_first_subseq seen rs : subseq (dedup_first seen rs) rs.
Proof.
  revert seen; induction rs as [|[i r] t IH]; intros seen; simpl.
  - constructor.
  - destruct (existsb (row_eqb r) seen); [apply subseq_skip | apply subseq_keep]; auto.
Qed.

Lemma existsb_row_eqb_equiv seen r s :
  existsb (row_eqb s) seen = true -> row_eqb r s = true ->
  existsb (row_eqb r) seen = true.
Proof.
  intros H Hrs. apply existsb_exists in H as [x [Hx Hsx]].
  apply existsb_exists. exists x. split; eauto using row_eqb_trans.
Qed.

(** Keeping rows against the kept ones equals keeping them against all
    earlier ones, because row equality is an equivalence. *)
Lemma dedup_first_keep_first seen earlier rs :
  (forall x, existsb (row_eqb x) seen = existsb (row_eqb x) earlier) ->
  dedup_first seen rs = keep_first_occurrences earlier rs.
Proof.
  revert seen earlier; induction rs as [|[i r] t IH]; intros seen earlier Hs; simpl; auto.
  rewrite Hs. destruct (existsb (row_eqb r) earlier) eqn:E.
  - apply IH. intros x. simpl. rewrite <- Hs.
    destruct (row_eqb x r) eqn:Ex; simpl; auto.
    apply (existsb_row_eqb_equiv _ _ r); auto. now rewrite Hs.
  - f_equal. apply IH. intros x. simpl. now rewrite Hs.
Qed.

(** C5: [drop_duplicates] is idempotent on the data; the second call still
    appends a log entry, whose two shapes are equal. *)
Theorem drop_duplicates_idempotent (df : frame) (log : transformation_log) :
  let (df1, log1) := drop_duplicates df log in
  drop_duplicates df1 log1 = (df1, app log1 [drop_entry (shape df1) (shape df1)]).
Proof.
  unfold drop_duplicates at 1. simpl.
  unfold drop_duplicates. simpl. rewrite dedup_first_idem. reflexivity.
Qed.

(** C6: [drop_duplicates] keeps exactly the rows equal to no earlier row, in
    their original order (a subsequence of the rows, index labels kept), and
    appends one log entry with the row-count shapes before and after. *)
Theorem drop_duplicates_first_occurrence (df : frame) (log : transformation_log) :
  let (df', log') := drop_duplicates df log in
  columns df' = columns df /\
  rows df' = keep_first_occurrences [] (rows df) /\
  subseq (rows df') (rows df) /\
  log' = app log [drop_entry (length (rows df), length (columns df))
                             (length (rows df'), length (columns df))].
Proof.
  unfold drop_duplicates. simpl. repeat split.
  - apply dedup_first_keep_first. reflexivity.
  - apply dedup_first_subseq.
Qed.

(** ** Mean imputation *)

Lemma map_nth_length {A} j (f : A -> A) l : length (map_nth j f l) = length l.
Proof. revert j; induction l; destruct j; simpl; auto. Qed.

Lemma nth_map_nth_same {A} j (f : A -> A) l d :
  (j < length l)%nat -> nth j (map_nth j f l) d = f (nth j l d).
Proof.
  revert j; induction l; destruct j; simpl; intros H; try lia; auto.
  apply IHl; lia.
Qed.

Lemma nth_map_nth_other {A} j k (f : A -> A) l d :
  k <> j -> nth k (map_nth j f l) d = nth k l d.
Proof.
  revert j k; induction l; intros j k H; destruct j, k; simpl; auto; try congruence.
Qed.

(** Every row reaches column [j]. *)
Definition wide (j : nat) (df : frame) : Prop :=
  forall r, In r (rows df) -> (j < length (snd r))%nat.

Lemma column_values_fillna j k v df :
  wide j df ->
  column_values k (fillna_col j v df) =
  if Nat.eqb k j then map (fill_cell v) (column_values j df) else column_values k df.
Proof.
  intros Hw. unfold column_values, fillna_col; simpl. rewrite map_map.
  destruct (Nat.eqb_spec k j) as [->|Hne].
  - rewrite map_map. apply map_ext_in. intros r Hr. simpl.
    apply nth_map_nth_same; auto.
  - apply map_ext. intros r. simpl. apply nth_map_nth_other; auto.
Qed.

Lemma wide_fillna j k v df : wide k df -> wide k (fillna_col j v df).
Proof.
  unfold wide, fillna_col; simpl. intros Hw r Hr.
  apply in_map_iff in Hr as [r0 [<- Hr0]]. simpl.
  rewrite map_nth_length. auto.
Qed.

Lemma index_fillna j v df : map fst (rows (fillna_col j v df)) = map fst (rows df).
Proof. unfold fillna_col; simpl. rewrite map_map. reflexivity. Qed.

Definition affected (cs : list (nat * (string * dtype))) (df : frame)
    : list (nat * (string * dtype)) :=
  filter (fun p => (0 <? isnull_sum (column_values (fst p) df))%nat) cs.

Lemma affected_ext cs df1 df2 :
  (forall p, In p cs -> column_values (fst p) df1 = column_values (fst p) df2) ->
  affected cs df1 = affected cs df2.
Proof.
  induction cs as [|p cs IH]; simpl; intros H; auto.
  rewrite (H p (or_introl eq_refl)), IH; auto.
Qed.

Lemma existsb_pos_filter_absent j (h : nat * (string * dtype) -> bool) cs :
  ~ In j (map fst cs) -> existsb (fun p => Nat.eqb (fst p) j) (filter h cs) = false.
Proof.
  induction cs as [|p cs IH]; simpl; intros Hn; auto.
  destruct (h p); simpl; [|auto].
  destruct (Nat.eqb_spec (fst p) j); simpl; auto. tauto.
Qed.

Lemma impute_loop_spec cs :
  forall df log,
  NoDup (map fst cs) ->
  (forall p, In p cs -> wide (fst p) df) ->
  let res := impute_loop cs df log in
  columns (fst res) = columns df /\
  map fst (rows (fst res)) = map fst (rows df) /\
  (forall k, wide k df -> wide k (fst res)) /\
  snd res = app log (map (fun p => impute_entry (fst (snd p))) (affected cs df)) /\
  (forall k, column_values k (fst res) =
     if existsb (fun p => Nat.eqb (fst p) k) (affected cs df)
     then map (fill_cell (col_mean (column_values k df))) (column_values k df)
     else column_values k df).
Proof.
  induction cs as [|[j [col d]] cs IH]; intros df log HN Hw.
  { simpl. rewrite app_nil_r. auto. }
  simpl in HN. inversion HN as [|? ? Hj HN']; subst.
  assert (Hw' : forall p, In p cs -> wide (fst p) df) by (intros; apply Hw; simpl; auto).
  assert (Hwj : wide j df) by (apply (Hw (j, (col, d))); simpl; auto).
  cbn zeta. simpl impute_loop.
  destruct (0 <? isnull_sum (column_values j df))%nat eqn:E.
  - assert (Ha : affected ((j, (col, d)) :: cs) df = (j, (col, d)) :: affected cs df)
      by (unfold affected; simpl; rewrite E; reflexivity).
    rewrite Ha.
    set (df1 := fillna_col j (col_mean (column_values j df)) df).
    assert (Hcol : forall p, In p cs -> column_values (fst p) df1 = column_values (fst p) df).
    { intros p Hp. unfold df1. rewrite column_values_fillna by auto.
      destruct (Nat.eqb_spec (fst p) j); auto.
      exfalso. apply Hj. subst. now apply in_map. }
    destruct (IH df1 (app log [impute_entry col]) HN')
      as [Hc [Hi [Hwd [Hl Hv]]]].
    { intros p Hp. apply wide_fillna. auto. }
    rewrite (affected_ext cs df1 df Hcol) in Hl, Hv.
    repeat split.
    + rewrite Hc. reflexivity.
    + rewrite Hi. apply index_fillna.
    + intros k Hk. apply Hwd, wide_fillna, Hk.
    + rewrite Hl, <- app_assoc. reflexivity.
    + intros k. rewrite Hv. simpl. unfold df1.
      rewrite !column_values_fillna by auto.
      destruct (Nat.eqb_spec k j) as [->|Hne].
      * unfold affected. rewrite existsb_pos_filter_absent by auto.
        rewrite Nat.eqb_refl. reflexivity.
      * apply Nat.eqb_neq in Hne. rewrite Nat.eqb_sym, Hne. simpl. reflexivity.
  - assert (Ha : affected ((j, (col, d)) :: cs) df = affected cs df)
      by (unfold affected; simpl; rewrite E; reflexivity).
    rewrite Ha. apply IH; auto.
Qed.

Lemma enumerate_fst {A} n (l : list A) : map fst (enumerate n l) = seq n (length l).
Proof. revert n; induction l; simpl; intros; f_equal; auto. Qed.

Lemma In_enumerate {A} n (l : list A) j x :
  In (j, x) (enumerate n l) -> (n <= j)%nat /\ nth_error l (j - n) = Some x.
Proof.
  revert n; induction l as [|a l IH]; simpl; intros n H; [contradiction|].
  destruct H as [H|H].
  - inversion H; subst. rewrite Nat.sub_diag. auto.
  - apply IH in H as [H1 H2]. split; [lia|].
    replace (j - n)%nat with (S (j - S n)) by lia. exact H2.
Qed.

Lemma NoDup_map_filter {A B} (f : A -> B) g l :
  NoDup (map f l) -> NoDup (map f (filter g l)).
Proof.
  induction l as [|a l IH]; simpl; intros H; auto.
  inversion H as [|? ? Ha Hl]; subst.
  destruct (g a); simpl; auto. constructor; auto.
  intros Hin. apply Ha. apply in_map_iff in Hin as [y [Hy Hiny]].
  apply filter_In in Hiny. rewrite <- Hy. apply in_map. tauto.
Qed.

Lemma existsb_enumerate_filter (h : nat * (string * dtype) -> bool) n l j x :
  nth_error l j = Some x ->
  existsb (fun p => Nat.eqb (fst p) (n + j)%nat) (filter h (enumerate n l)) = h ((n + j)%nat, x).
Proof.
  revert n j; induction l as [|a l IH]; intros n j Hj; destruct j; simpl in Hj; try discriminate.
  - inversion Hj; subst. rewrite Nat.add_0_r. simpl.
    destruct (h (n, x)) eqn:Eh; simpl.
    + now rewrite Nat.eqb_refl.
    + apply existsb_pos_filter_absent. rewrite enumerate_fst.
      rewrite in_seq. lia.
  - replace (n + S j)%nat with (S n + j)%nat by lia.
    specialize (IH (S n) j Hj). cbn [enumerate filter].
    destruct (h (n, a)); cbn [existsb]; rewrite IH; auto.
    replace (Nat.eqb (fst (n, a)) (S n + j)) with false by (symmetry; apply Nat.eqb_neq; simpl; lia).
    reflexivity.
Qed.

Lemma row_fits_length cs r : row_fits cs r = true -> length r = length cs.
Proof.
  revert r; induction cs as [|[n d] cs IH]; destruct r; simpl; try discriminate; auto.
  rewrite andb_true_iff. intros [_ H]. f_equal. auto.
Qed.

Lemma row_fits_nth cs r j n d :
  row_fits cs r = true -> nth_error cs j = Some (n, d) -> cell_fits d (nth j r None) = true.
Proof.
  revert r j; induction cs as [|[n' d'] cs IH]; destruct r, j; simpl; try discriminate.
  - rewrite andb_true_iff. intros [H _] E. now inversion E; subst.
  - rewrite andb_true_iff. intros [_ H] E. eauto.
Qed.

Lemma frame_ok_rows df r :
  frame_ok df = true -> In r (rows df) -> row_fits (columns df) (snd r) = true.
Proof. unfold frame_ok. rewrite forallb_forall. auto. Qed.

Lemma frame_ok_wide df j :
  frame_ok df = true -> (j < length (columns df))%nat -> wide j df.
Proof.
  intros Hok Hj r Hr. rewrite (row_fits_length _ _ (frame_ok_rows df r Hok Hr)). exact Hj.
Qed.

Lemma frame_ok_column_fits df j n d y :
  frame_ok df = true -> nth_error (columns df) j = Some (n, d) ->
  In y (column_values j df) -> cell_fits d y = true.
Proof.
  intros Hok Hj Hy. unfold column_values in Hy.
  apply in_map_iff in Hy as [r [<- Hr]].
  eapply row_fits_nth; eauto using frame_ok_rows.
Qed.

Lemma numeric_cols_wide df p :
  frame_ok df = true -> In p (numeric_cols df) -> wide (fst p) df.
Proof.
  intros Hok Hp. apply filter_In in Hp as [Hp _]. destruct p as [j x].
  apply In_enumerate in Hp as [_ Hp]. rewrite Nat.sub_0_r in Hp.
  apply frame_ok_wide; auto. apply nth_error_Some. simpl. congruence.
Qed.

Lemma numeric_cols_nodup df : NoDup (map fst (numeric_cols df)).
Proof. apply NoDup_map_filter. rewrite enumerate_fst. apply seq_NoDup. Qed.

Lemma affected_numeric_cols df :
  affected (numeric_cols df) df =
  filter (fun p => is_number (snd (snd p)) && (0 <? isnull_sum (column_values (fst p) df))%nat)
         (enumerate 0 (columns df)).
Proof.
  unfold affected, numeric_cols. induction (enumerate 0 (columns df)) as [|p l IH]; simpl; auto.
  destruct (is_number (snd (snd p))); simpl; auto. rewrite IH. reflexivity.
Qed.

Lemma isnull_fill_num m c :
  is_nan m = false -> isnull_sum (map (fill_cell m) c) = 0%nat.
Proof.
  intros Hm. unfold isnull_sum. induction c as [|[x|] c IH]; simpl; auto.
  rewrite Hm. simpl. exact IH.
Qed.

Lemma isnull_fill_nan m c : is_nan m = true -> map (fill_cell m) c = c.
Proof. intros Hm. induction c as [|[x|] c IH]; simpl; try rewrite Hm; f_equal; auto. Qed.

Lemma isnull_sum_le c : (isnull_sum c <= length c)%nat.
Proof.
  unfold isnull_sum. induction c as [|[x|] c IH]; simpl; lia.
Qed.

(** The mean of a column without a present value is NaN. *)
Lemma col_mean_no_present c : isnull_sum c = length c -> is_nan (col_mean c) = true.
Proof. intros H. unfold col_mean. rewrite H, Nat.sub_diag. reflexivity. Qed.

Lemma enumerate_In_nth {A} n (l : list A) j x :
  nth_error l j = Some x -> In ((n + j)%nat, x) (enumerate n l).
Proof.
  revert n j; induction l as [|a l IH]; intros n j Hj; destruct j; simpl in Hj; try discriminate.
  - inversion Hj; subst. rewrite Nat.add_0_r. simpl. auto.
  - simpl. right. replace (n + S j)%nat with (S n + j)%nat by lia. auto.
Qed.

(** What one call of [impute_missing_values] does, column by column. *)
Lemma impute_core (df : frame) (log : transformation_log) :
  frame_ok df = true ->
  let (df', log') := impute_missing_values df log in
  columns df' = columns df /\
  map fst (rows df') = map fst (rows df) /\
  (forall j col d, nth_error (columns df) j = Some (col, d) ->
     column_values j df' =
       if is_number d && (0 <? isnull_sum (column_values j df))%nat
       then map (fill_cell (col_mean (column_values j df))) (column_values j df)
       else column_values j df) /\
  log' = app log (map (fun p => impute_entry (fst (snd p)))
           (filter (fun p => is_number (snd (snd p))
                             && (0 <? isnull_sum (column_values (fst p) df))%nat)
                   (enumerate 0 (columns df)))).
Proof.
  intros Hok. unfold impute_missing_values.
  destruct (impute_loop_spec (numeric_cols df) df log (numeric_cols_nodup df)
              (fun p Hp => numeric_cols_wide df p Hok Hp)) as [Hc [Hi [_ [Hl Hv]]]].
  destruct (impute_loop (numeric_cols df) df log) as [df' log']. simpl in *.
  rewrite affected_numeric_cols in Hl, Hv.
  repeat split; auto.
  intros j col d Hj. rewrite Hv.
  pose proof (existsb_enumerate_filter
                (fun p => is_number (snd (snd p)) && (0 <? isnull_sum (column_values (fst p) df))%nat)
                0 (columns df) j (col, d) Hj) as Hx.
  rewrite Nat.add_0_l in Hx. rewrite Hx. reflexivity.
Qed.

Lemma row_fits_fill cs r j n d v :
  row_fits cs r = true -> nth_error cs j = Some (n, d) -> is_number d = true ->
  row_fits cs (map_nth j (fill_cell v) r) = true.
Proof.
  revert r j; induction cs as [|[n' d'] cs IH]; intros r j; destruct r, j; simpl;
    try discriminate; rewrite !andb_true_iff; intros [H1 H2] Hj Hd.
  - inversion Hj; subst. split; auto.
    destruct c as [c|]; simpl; auto. destruct d; simpl in *; try discriminate.
    destruct (is_nan v) eqn:Ev; simpl; [reflexivity|]. rewrite Ev. reflexivity.
  - split; eauto.
Qed.

Lemma fillna_frame_ok df j n d v :
  frame_ok df = true -> nth_error (columns df) j = Some (n, d) -> is_number d = true ->
  frame_ok (fillna_col j v df) = true.
Proof.
  intros Hok Hj Hd. unfold frame_ok, fillna_col; simpl.
  apply forallb_forall. intros r Hr. apply in_map_iff in Hr as [r0 [<- Hr0]]. simpl.
  eapply row_fits_fill; eauto using frame_ok_rows.
Qed.

Lemma impute_loop_ok cs :
  forall df log,
  (forall p, In p cs -> nth_error (columns df) (fst p) = Some (snd p)
                        /\ is_number (snd (snd p)) = true) ->
  frame_ok df = true -> frame_ok (fst (impute_loop cs df log)) = true.
Proof.
  induction cs as [|[j [col d]] cs IH]; intros df log Hcs Hok; simpl; auto.
  destruct (Hcs (j, (col, d)) (or_introl eq_refl)) as [Hj Hd]. simpl in Hj, Hd.
  destruct (0 <? isnull_sum (column_values j df))%nat.
  - apply IH; [|eapply fillna_frame_ok; eauto]. intros p Hp. apply Hcs. simpl; auto.
  - apply IH; auto. intros p Hp. apply Hcs. simpl; auto.
Qed.

Lemma impute_frame_ok df log :
  frame_ok df = true -> frame_ok (fst (impute_missing_values df log)) = true.
Proof.
  intros Hok. apply impute_loop_ok; auto.
  intros [j [col d]] Hp. unfold numeric_cols in Hp. apply filter_In in Hp as [Hp Hd].
  apply In_enumerate in Hp as [_ Hp]. rewrite Nat.sub_0_r in Hp. auto.
Qed.



(** The filled value is the floating-point mean, not the arithmetic one:
    [1e308 + 1e308] overflows, and the gap is filled with [inf]. *)
Example impute_overflow :
  let big := fl (10 ^ 308) 0 in
  column_values 0 (fst (impute_missing_values
    (mkFrame [("x", Float64)]
       [(0%Z, [Some (VFloat big)]); (1%Z, [Some (VFloat big)]); (2%Z, [None])]) []))
  = [Some (VFloat big); Some (VFloat big); Some (VFloat (S754_infinity false))].
Proof. vm_compute. reflexivity. Qed.



Lemma isnull_all_missing l : (forall c, In c l -> c = None) -> isnull_sum l = length l.
Proof.
  unfold isnull_sum. induction l as [|c l IH]; simpl; intros H; auto.
  rewrite (H c (or_introl eq_refl)). simpl. f_equal. auto.
Qed.

(** One call on a frame whose numeric column [j] is entirely missing. *)
Lemma impute_all_missing_step df log j col d :
  frame_ok df = true -> nth_error (columns df) j = Some (col, d) -> is_number d = true ->
  rows df <> [] -> (forall c, In c (column_values j df) -> c = None) ->
  let (df', log') := impute_missing_values df log in
  frame_ok df' = true /\ columns df' = columns df /\ rows df' <> [] /\
  column_values j df' = column_values j df /\
  exists ext, log' = app log ext /\ In (impute_entry col) ext.
Proof.
  intros Hok Hj Hd Hne Hall.
  pose proof (impute_frame_ok df log Hok) as Hok'.
  pose proof (impute_core df log Hok) as Hcore.
  destruct (impute_missing_values df log) as [df' log']. simpl in Hok'.
  destruct Hcore as [Hc [Hi [Hv Hl]]].
  assert (Hpos : (0 <? isnull_sum (column_values j df))%nat = true).
  { apply Nat.ltb_lt. rewrite isnull_all_missing by exact Hall.
    unfold column_values. rewrite length_map. destruct (rows df); simpl; [congruence|lia]. }
  repeat split; auto.
  - intros E. apply Hne. apply map_eq_nil with (f := fst). rewrite <- Hi, E. reflexivity.
  - rewrite (Hv j col d Hj), Hd, Hpos. simpl.
    apply isnull_fill_nan, col_mean_no_present, isnull_all_missing, Hall.
  - eexists. split; [exact Hl|]. apply in_map_iff. exists (j, (col, d)). split; auto.
    apply filter_In. split.
    + apply (enumerate_In_nth 0 _ j (col, d) Hj).
    + simpl. rewrite Hd, Hpos. reflexivity.
Qed.

(** C10: a numeric column whose values are all missing stays all missing
    under imputation, yet every call logs it again: after [n] calls the log
    has grown by at least [n] entries. *)
Theorem impute_all_missing_column_relogged df log j col d :
  frame_ok df = true -> nth_error (columns df) j = Some (col, d) -> is_number d = true ->
  rows df <> [] -> (forall c, In c (column_values j df) -> c = None) ->
  (let (df', log') := impute_missing_values df log in
   column_values j df' = column_values j df /\
   exists ext, log' = app log ext /\ In (impute_entry col) ext) /\
  (forall n,
   let (dfn, logn) := Nat.iter n (fun s => impute_missing_values (fst s) (snd s)) (df, log) in
   column_values j dfn = column_values j df /\ (length logn >= length log + n)%nat).
Proof.
  intros Hok Hj Hd Hne Hall. split.
  - pose proof (impute_all_missing_step df log j col d Hok Hj Hd Hne Hall) as H.
    destruct (impute_missing_values df log). tauto.
  - intros n.
    assert (Inv : let (dfn, logn) :=
                    Nat.iter n (fun s => impute_missing_values (fst s) (snd s)) (df, log) in
                  frame_ok dfn = true /\ columns dfn = columns df /\ rows dfn <> [] /\
                  column_values j dfn = column_values j df /\
                  (length logn >= length log + n)%nat).
    { induction n as [|n IH]; simpl.
      - repeat split; auto. lia.
      - destruct (Nat.iter n (fun s => impute_missing_values (fst s) (snd s)) (df, log))
          as [dfn logn]. simpl.
        destruct IH as [Hok' [Hc' [Hne' [Hv' Hlen]]]].
        rewrite <- Hc' in Hj. rewrite <- Hv' in Hall.
        pose proof (impute_all_missing_step dfn logn j col d Hok' Hj Hd Hne' Hall) as Hs.
        destruct (impute_missing_values dfn logn) as [df2 log2].
        destruct Hs as [Hok2 [Hc2 [Hne2 [Hv2 [ext [-> Hin]]]]]].
        repeat split; auto; try congruence.
        rewrite length_app. destruct ext; [contradiction|simpl; lia]. }
    destruct (Nat.iter n (fun s => impute_missing_values (fst s) (snd s)) (df, log)). tauto.
Qed.

Definition sample_empty_col : frame :=
  mkFrame [("id", Int64); ("score", Float64)]
    [ (0%Z, [Some (VInt 1); None]);
      (1%Z, [Some (VInt 2); None]) ].

Lemma impute_all_missing_column_relogged_witness :
  frame_ok sample_empty_col = true /\
  nth_error (columns sample_empty_col) 1 = Some ("score", Float64) /\
  is_number Float64 = true /\ rows sample_empty_col <> [] /\
  (forall c, In c (column_values 1 sample_empty_col) -> c = None) /\
  ((let (df', log') := impute_missing_values sample_empty_col [] in
    column_values 1 df' = column_values 1 sample_empty_col /\
    exists ext, log' = app [] ext /\ In (impute_entry "score") ext) /\
   (forall n,
    let (dfn, logn) := Nat.iter n (fun s => impute_missing_values (fst s) (snd s))
                         (sample_empty_col, []) in
    column_values 1 dfn = column_values 1 sample_empty_col /\
    (length logn >= length (@nil string) + n)%nat)).
Proof.
  assert (Hall : forall c, In c (column_values 1 sample_empty_col) -> c = None).
  { simpl. intros c [H|[H|[]]]; auto. }
  split; [reflexivity|]. split; [reflexivity|]. split; [reflexivity|].
  split; [discriminate|]. split; [exact Hall|].
  apply (impute_all_missing_column_relogged sample_empty_col [] 1 "score" Float64);
    [reflexivity | reflexivity | reflexivity | discriminate | exact Hall].
Defined.

(** ** The Transformation Log across cleaning actions *)

Inductive cleaning_action := ImputeMissing | DropDuplicates.

(** A checked "Impute Missing Values" or "Drop Duplicate Rows" box in [main]. *)
Definition apply_action (a : cleaning_action) (s : frame * transformation_log)
    : frame * transformation_log :=
  match a with
  | ImputeMissing => impute_missing_values (fst s) (snd s)
  | DropDuplicates => drop_duplicates (fst s) (snd s)
  end.

Fixpoint run_actions (acts : list cleaning_action) (s : frame * transformation_log)
    : frame * transformation_log :=
  match acts with
  | [] => s
  | a :: acts' => run_actions acts' (apply_action a s)
  end.

(** The entries one imputation call appends. *)
Definition impute_entries (df : frame) : list string :=
  map (fun p => impute_entry (fst (snd p)))
    (filter (fun p => is_number (snd (snd p))
                      && (0 <? isnull_sum (column_values (fst p) df))%nat)
            (enumerate 0 (columns df))).

Lemma dedup_first_incl seen rs r : In r (dedup_first seen rs) -> In r rs.
Proof.
  revert seen; induction rs as [|[i x] t IH]; simpl; intros seen H; auto.
  destruct (existsb (row_eqb x) seen); [right; eauto|].
  destruct H as [H|H]; [left; auto | right; eauto].
Qed.

Lemma drop_frame_ok df log :
  frame_ok df = true -> frame_ok (fst (drop_duplicates df log)) = true.
Proof.
  unfold frame_ok, drop_duplicates; simpl. rewrite !forallb_forall.
  intros H r Hr. apply H. eapply dedup_first_incl; eauto.
Qed.

Lemma apply_action_ok a s : frame_ok (fst s) = true -> frame_ok (fst (apply_action a s)) = true.
Proof. destruct a; simpl; [apply (impute_frame_ok (fst s) (snd s)) | apply (drop_frame_ok (fst s) (snd s))]. Qed.

Lemma impute_log df log :
  frame_ok df = true -> snd (impute_missing_values df log) = app log (impute_entries df).
Proof.
  intros Hok. pose proof (impute_core df log Hok) as H.
  destruct (impute_missing_values df log). simpl. tauto.
Qed.

(** C2 (as stated it fails): a call of [impute_missing_values] on a frame
    without missing values appends no entry at all. *)
Definition no_missing : frame := mkFrame [("id", Int64)] [(0%Z, [Some (VInt 1)])].

Lemma cleaning_one_entry_per_action_counterexample :
  ~ (forall df log, length (snd (apply_action ImputeMissing (df, log))) = S (length log)).
Proof.
  intros H. specialize (H no_missing []). vm_compute in H. discriminate.
Qed.

(** C2 (amended): every cleaning action only appends at the end of the log,
    so entries stay in call order; [drop_duplicates] appends exactly one
    entry per call, [impute_missing_values] one per numeric column with a
    missing value (none, one or several), changed data or not. *)
Theorem cleaning_log_append_only (acts : list cleaning_action) (df : frame)
    (log : transformation_log) :
  frame_ok df = true ->
  snd (apply_action ImputeMissing (df, log)) = app log (impute_entries df) /\
  snd (apply_action DropDuplicates (df, log))
    = app log [drop_entry (shape df) (shape (fst (drop_duplicates df log)))] /\
  exists chunks,
    snd (run_actions acts (df, log)) = app log (concat chunks) /\
    Forall2 (fun a c => a = DropDuplicates -> length c = 1%nat) acts chunks.
Proof.
  intros Hok. split; [apply impute_log; auto|]. split; [reflexivity|].
  revert df log Hok. induction acts as [|a acts IH]; intros df log Hok.
  - exists []. simpl. rewrite app_nil_r. auto.
  - simpl. destruct (apply_action a (df, log)) as [df1 log1] eqn:E.
    assert (Hok1 : frame_ok df1 = true).
    { change df1 with (fst (df1, log1)). rewrite <- E. now apply apply_action_ok. }
    destruct (IH df1 log1 Hok1) as [chunks [Hl Hf]].
    destruct a.
    + exists (impute_entries df :: chunks).
      assert (Hlog1 : log1 = app log (impute_entries df)).
      { change log1 with (snd (df1, log1)). rewrite <- E. apply impute_log; auto. }
      split; [rewrite Hl, Hlog1, <- app_assoc; reflexivity|]. constructor; auto. discriminate.
    + exists ([drop_entry (shape df) (shape df1)] :: chunks). simpl in E.
      unfold drop_duplicates in E. injection E as <- <-.
      split; [rewrite Hl, <- app_assoc; reflexivity|]. constructor; auto.
Qed.

Lemma cleaning_log_append_only_witness :
  frame_ok sample = true /\
  snd (apply_action ImputeMissing (sample, [])) = app [] (impute_entries sample) /\
  snd (apply_action DropDuplicates (sample, []))
    = app [] [drop_entry (shape sample) (shape (fst (drop_duplicates sample [])))] /\
  exists chunks,
    snd (run_actions [ImputeMissing; DropDuplicates] (sample, [])) = app [] (concat chunks) /\
    Forall2 (fun a c => a = DropDuplicates -> length c = 1%nat)
      [ImputeMissing; DropDuplicates] chunks.
Proof.
  split; [reflexivity|].
  apply (cleaning_log_append_only [ImputeMissing; DropDuplicates] sample []). reflexivity.
Defined.

(** ** Advisory calls *)

(** C1 (the code raises): [os.get_env] is not an attribute of [os], and the
    lookup happens before the key check and outside the [try], so both
    advisory calls raise AttributeError whatever the environment holds. *)
Theorem advisory_calls_raise_attribute_error chat_create (e : env) (data_summary ml_task : string) :
  get_cleaning_suggestions chat_create e data_summary ml_task
    = Raise (AttributeError "module 'os' has no attribute 'get_env'") /\
  get_additional_checks chat_create e data_summary ml_task
    = Raise (AttributeError "module 'os' has no attribute 'get_env'").
Proof. split; reflexivity. Qed.

(** ** Readiness messages *)

Lemma prefixb_app p b : prefixb p (p ++ b) = true.
Proof. induction p; simpl; auto. now rewrite Ascii.eqb_refl. Qed.


Lemma py_contains_prefix p s : prefixb p s = true -> py_contains p s = true.
Proof. intros H. destruct s; simpl; rewrite H; reflexivity. Qed.

Lemma py_contains_mid p a b : py_contains p (a ++ p ++ b) = true.
Proof.
  induction a; simpl.
  - apply py_contains_prefix, prefixb_app.
  - rewrite IHa. apply orb_true_r.
Qed.















(** ** Exports *)

Lemma py_contains_app_l p a s : py_contains p s = true -> py_contains p (a ++ s) = true.
Proof. induction a; simpl; auto. intros H. rewrite IHa by exact H. apply orb_true_r. Qed.

Lemma prefixb_app_r p s t : prefixb p s = true -> prefixb p (s ++ t) = true.
Proof.
  revert s; induction p; intros s H; simpl; auto.
  destruct s; simpl in *; try discriminate.
  rewrite andb_true_iff in *. destruct H. auto.
Qed.

Lemma py_contains_app_r p s t : py_contains p s = true -> py_contains p (s ++ t) = true.
Proof.
  induction s; intros H.
  - simpl in H. apply orb_true_iff in H as [H|H]; [|discriminate].
    destruct p; [|discriminate]. apply py_contains_prefix. reflexivity.
  - simpl in *. apply orb_true_iff in H as [H|H].
    + pose proof (prefixb_app_r p (String a s) t H) as H'. simpl in H'.
      rewrite H'. reflexivity.
    + rewrite IHs by exact H. apply orb_true_r.
Qed.

Lemma py_contains_join p sep xs x :
  In x xs -> py_contains p x = true -> py_contains p (py_join sep xs) = true.
Proof.
  induction xs as [|y xs IH]; simpl; intros Hin Hx; [contradiction|].
  destruct xs as [|z xs].
  - destruct Hin as [<-|[]]. exact Hx.
  - destruct Hin as [<-|Hin].
    + apply py_contains_app_r. exact Hx.
    + apply py_contains_app_l, py_contains_app_l. apply IH; auto.
Qed.

Lemma str_append_nil s : s ++ "" = s.
Proof. induction s; simpl; f_equal; auto. Qed.

(** C8: the exported script is the fixed header, then every log entry
    verbatim and in order, indented by four spaces, then [return df]; any
    log content is accepted, the write being the only way to fail; on an
    empty log the function body only returns its argument. *)
Theorem export_script_wraps_log (now : timestamp) (log : transformation_log) (s : fs) :
  script_lines now log
    = app (script_header now) (app (map (fun step => "    " ++ step) log) ["    return df"]) /\
  (forall step, In step log -> py_contains step (script_content now log) = true) /\
  (writable s script_path = true ->
   export_transformation_script now log s
     = (Ret script_path,
        mkFs (cwd s) ((script_path, script_content now log) :: files s) (writable s) (fault s))) /\
  script_lines now []
    = [ "# Transformation Script"; "# Generated on: " ++ ts_human now; "";
        "import pandas as pd"; ""; "def transform_data(df):";
        "    # Transformation steps applied"; "    return df" ].
Proof.
  split; [reflexivity|]. split.
  - intros step Hin. unfold script_content.
    apply (py_contains_join _ _ _ ("    " ++ step)).
    + unfold script_lines. apply in_or_app. right. apply in_or_app. left.
      apply in_map. exact Hin.
    + rewrite <- (str_append_nil step) at 2. apply py_contains_mid.
  - split; [|reflexivity].
    intros Hw. unfold export_transformation_script, write_file. rewrite Hw. reflexivity.
Qed.

Definition all_writable : fs :=
  mkFs "/app" [] (fun _ => true) (fun _ => OpenFails 13 "Permission denied").

Lemma export_script_wraps_log_witness :
  writable all_writable script_path = true /\
  export_transformation_script (mkTimestamp "2024-01-01 00:00:00" "20240101_000000")
    ["df.drop_duplicates(inplace=True)"] all_writable
  = (Ret script_path,
     mkFs (cwd all_writable)
          ((script_path, script_content (mkTimestamp "2024-01-01 00:00:00" "20240101_000000")
                           ["df.drop_duplicates(inplace=True)"]) :: files all_writable)
          (writable all_writable) (fault all_writable)).
Proof.
  split; [reflexivity|].
  apply (export_script_wraps_log (mkTimestamp "2024-01-01 00:00:00" "20240101_000000")
           ["df.drop_duplicates(inplace=True)"] all_writable).
  reflexivity.
Defined.







(** ** Ingestion *)

Lemma substring_full s : substring 0 (String.length s) s = s.
Proof. induction s; simpl; f_equal; auto. Qed.

Lemma map_nth_fixed {A} j (f : A -> A) l x :
  nth_error l j = Some x -> f x = x -> map_nth j f l = l.
Proof.
  revert j; induction l as [|a l IH]; intros j Hj Hf; destruct j; simpl in *;
    try discriminate.
  - inversion Hj; subst. now rewrite Hf.
  - f_equal. eauto.
Qed.

Lemma filter_filter_and {A} (h g : A -> bool) l :
  filter g (filter h l) = filter (fun x => h x && g x) l.
Proof.
  induction l as [|x l IH]; simpl; auto.
  destruct (h x); simpl; [destruct (g x)|]; simpl; rewrite ?IH; auto.
Qed.

Lemma existsb_eqb_false col l : existsb (String.eqb col) l = false <-> ~ In col l.
Proof.
  split.
  - intros H Hin. assert (existsb (String.eqb col) l = true); [|congruence].
    apply existsb_exists. exists col. split; auto. apply String.eqb_refl.
  - intros Hn. destruct (existsb (String.eqb col) l) eqn:E; auto.
    apply existsb_exists in E as [y [Hy Ey]]. apply String.eqb_eq in Ey. subst. tauto.
Qed.

Section IngestionProofs.
Variable parse_csv : string -> option (list string) -> py_result frame.
Variable py_str : cell -> string.

Definition as_text (c : cell) : cell := Some (VStr (py_str c)).

Lemma column_values_astype j k df :
  wide j df ->
  column_values k (astype_str py_str j df) =
  if Nat.eqb k j then map as_text (column_values j df) else column_values k df.
Proof.
  intros Hw. unfold column_values, astype_str; simpl. rewrite map_map.
  destruct (Nat.eqb_spec k j) as [->|Hne].
  - rewrite map_map. apply map_ext_in. intros r Hr. simpl.
    apply nth_map_nth_same; auto.
  - apply map_ext. intros r. simpl. apply nth_map_nth_other; auto.
Qed.

Lemma wide_astype j k df : wide k df -> wide k (astype_str py_str j df).
Proof.
  unfold wide, astype_str; simpl. intros Hw r Hr.
  apply in_map_iff in Hr as [r0 [<- Hr0]]. simpl. rewrite map_nth_length. auto.
Qed.

(** The coercion loop over [object] columns, by induction on the columns. *)
Lemma coerce_loop_spec dc cs :
  forall df,
  NoDup (map fst cs) ->
  (forall p, In p cs -> wide (fst p) df /\ nth_error (columns df) (fst p) = Some (snd p)
                        /\ snd (snd p) = Object) ->
  let step := fun acc p =>
      if negb (existsb (String.eqb (fst (snd p))) dc) then astype_str py_str (fst p) acc else acc in
  let res := fold_left step cs df in
  columns res = columns df /\
  (forall k, column_values k res =
     if existsb (fun p => Nat.eqb (fst p) k)
          (filter (fun p => negb (existsb (String.eqb (fst (snd p))) dc)) cs)
     then map as_text (column_values k df) else column_values k df).
Proof.
  induction cs as [|[j [col d]] cs IH]; intros df HN Hcs; cbn zeta; simpl; auto.
  inversion HN as [|? ? Hj HN']; subst.
  destruct (Hcs (j, (col, d)) (or_introl eq_refl)) as [Hw [Hn Hd]]. simpl in Hw, Hn, Hd.
  subst d.
  destruct (negb (existsb (String.eqb col) dc)) eqn:Esel; simpl.
  - set (df1 := astype_str py_str j df).
    assert (Hc1 : columns df1 = columns df).
    { unfold df1, astype_str. simpl. apply (map_nth_fixed _ _ _ (col, Object)); auto. }
    destruct (IH df1 HN') as [Hc Hv].
    { intros p Hp. destruct (Hcs p (or_intror Hp)) as [Hwp [Hnp Hdp]].
      split; [apply wide_astype; auto|]. rewrite Hc1. auto. }
    split; [rewrite Hc; exact Hc1|].
    intros k. rewrite Hv. unfold df1. rewrite !column_values_astype by auto.
    destruct (Nat.eqb_spec k j) as [->|Hne].
    + rewrite existsb_pos_filter_absent by auto. rewrite Nat.eqb_refl. reflexivity.
    + apply Nat.eqb_neq in Hne. rewrite Nat.eqb_sym, Hne. reflexivity.
  - apply IH; auto. intros p Hp. apply Hcs. simpl; auto.
Qed.
End IngestionProofs.

Lemma object_cols_props df p :
  frame_ok df = true -> In p (object_cols df) ->
  wide (fst p) df /\ nth_error (columns df) (fst p) = Some (snd p) /\ snd (snd p) = Object.
Proof.
  intros Hok Hp. unfold object_cols in Hp. apply filter_In in Hp as [Hp Hd].
  destruct p as [j [col d]]. apply In_enumerate in Hp as [_ Hp].
  rewrite Nat.sub_0_r in Hp. simpl in *. split; [|split; auto].
  - apply frame_ok_wide; auto. apply nth_error_Some. congruence.
  - destruct d; simpl in Hd; try discriminate; auto.
Qed.

(** C7: ingestion reads the upload, takes as date-like exactly the column
    names containing "date" in lower case, in column order, re-parses the
    whole upload from its start with those columns as [parse_dates] (or with
    no hint and the "No date columns detected" notice when there are none),
    then turns every [object] column outside the date-like set into text and
    leaves every other column as parsed. *)
Theorem ingest_spec parse_csv py_str (f : upload) (df : frame) (notices : list notice) :
  (forall s h d, parse_csv s h = Ret d -> frame_ok d = true) ->
  ingest parse_csv py_str f = Ret (df, notices) ->
  exists df0 df1,
    parse_csv (substring (upos f) (String.length (ubuf f)) (ubuf f)) None = Ret df0 /\
    date_columns_of df0
      = filter (fun col => py_contains "date" (py_lower col)) (map fst (columns df0)) /\
    parse_csv (ubuf f)
      (match date_columns_of df0 with [] => None | dc => Some dc end) = Ret df1 /\
    notices = match date_columns_of df0 with
              | [] => [Warning "No date columns detected in the dataset"]
              | dc => [Info ("Date parsing applied to columns: " ++ py_join ", " dc)]
              end /\
    columns df = columns df1 /\
    (forall j col, nth_error (columns df1) j = Some (col, Object) ->
       ~ In col (date_columns_of df0) ->
       column_values j df = map (fun c => Some (VStr (py_str c))) (column_values j df1)) /\
    (forall j col d, nth_error (columns df1) j = Some (col, d) ->
       d <> Object \/ In col (date_columns_of df0) ->
       column_values j df = column_values j df1).
Proof.
  intros Hparse H. unfold ingest, read_csv in H.
  destruct (parse_csv (substring (upos f) (String.length (ubuf f)) (ubuf f)) None)
    as [df0|e] eqn:E0; simpl in H; [|discriminate].
  assert (Hcoerce : forall dc df1, frame_ok df1 = true ->
            let res := coerce_text_columns py_str dc df1 in
            columns res = columns df1 /\
            (forall j col d, nth_error (columns df1) j = Some (col, d) ->
               column_values j res =
               if String.eqb (dtype_name d) "object" && negb (existsb (String.eqb col) dc)
               then map (as_text py_str) (column_values j df1) else column_values j df1)).
  { intros dc df1 Hok1. unfold coerce_text_columns.
    destruct (coerce_loop_spec py_str dc (object_cols df1) df1) as [Hc Hv].
    - unfold object_cols. apply NoDup_map_filter. rewrite enumerate_fst. apply seq_NoDup.
    - intros p Hp. apply object_cols_props; auto.
    - split; [exact Hc|]. intros j col d Hj. rewrite Hv.
      unfold object_cols. rewrite filter_filter_and.
      pose proof (existsb_enumerate_filter
        (fun p => String.eqb (dtype_name (snd (snd p))) "object"
                  && negb (existsb (String.eqb (fst (snd p))) dc))
        0 (columns df1) j (col, d) Hj) as Hx.
      rewrite Nat.add_0_l in Hx. rewrite Hx. reflexivity. }
  exists df0.
  destruct (date_columns_of df0) as [|c dcs] eqn:Edc; simpl in H;
    rewrite substring_full in H.
  - destruct (parse_csv (ubuf f) None) as [df1|e] eqn:E1; simpl in H; [|discriminate].
    injection H as <- <-. exists df1.
    destruct (Hcoerce [] df1 (Hparse _ _ _ E1)) as [Hc Hv].
    repeat split; auto.
    + intros j col Hj Hn. rewrite (Hv j col Object Hj). reflexivity.
    + intros j col d Hj [Hd|[]]. rewrite (Hv j col d Hj).
      destruct d; try congruence; reflexivity.
  - destruct (parse_csv (ubuf f) (Some (c :: dcs))) as [df1|e] eqn:E1;
      simpl in H; [|discriminate].
    injection H as <- <-. exists df1.
    destruct (Hcoerce (c :: dcs) df1 (Hparse _ _ _ E1)) as [Hc Hv].
    repeat split; auto.
    + intros j col Hj Hn. rewrite (Hv j col Object Hj).
      apply existsb_eqb_false in Hn. rewrite Hn. reflexivity.
    + intros j col d Hj Hd. rewrite (Hv j col d Hj).
      destruct Hd as [Hd|Hd].
      * destruct d; try congruence; reflexivity.
      * assert (Hin : existsb (String.eqb col) (c :: dcs) = true).
        { apply existsb_exists. exists col. split; [exact Hd|apply String.eqb_refl]. }
        rewrite Hin, andb_false_r. reflexivity.
Qed.

Definition toy_csv : frame :=
  mkFrame [("Order_Date", DatetimeNs); ("code", Object)]
    [(0%Z, [Some (VTime 0); Some (VInt 7)]); (1%Z, [None; Some (VStr "x7")])].

Definition toy_parser (s : string) (h : option (list string)) : py_result frame := Ret toy_csv.
Definition toy_str (c : cell) : string := "v".

Lemma ingest_spec_witness :
  (forall s h d, toy_parser s h = Ret d -> frame_ok d = true) /\
  ingest toy_parser toy_str (mkUpload "Order_Date,code" 0)
    = Ret (coerce_text_columns toy_str ["Order_Date"] toy_csv,
           [Info "Date parsing applied to columns: Order_Date"]) /\
  exists df0 df1,
    toy_parser "Order_Date,code" None = Ret df0 /\
    date_columns_of df0 = ["Order_Date"] /\
    toy_parser "Order_Date,code" (Some ["Order_Date"]) = Ret df1 /\
    column_values 1 (coerce_text_columns toy_str ["Order_Date"] toy_csv)
      = map (fun c => Some (VStr (toy_str c))) (column_values 1 df1).
Proof.
  assert (Hp : forall s h d, toy_parser s h = Ret d -> frame_ok d = true).
  { intros s h d E. inversion E. reflexivity. }
  assert (Hi : ingest toy_parser toy_str (mkUpload "Order_Date,code" 0)
    = Ret (coerce_text_columns toy_str ["Order_Date"] toy_csv,
           [Info "Date parsing applied to columns: Order_Date"])) by reflexivity.
  split; [exact Hp|]. split; [exact Hi|].
  destruct (ingest_spec toy_parser toy_str _ _ _ Hp Hi)
    as [df0 [df1 [H0 [_ [H1 [_ [_ [Htext _]]]]]]]].
  exists df0, df1. unfold toy_parser in H0, H1. injection H0 as <-. injection H1 as <-.
  split; [reflexivity|]. split; [reflexivity|]. split; [reflexivity|].
  apply (Htext 1%nat "code"); [reflexivity|]. simpl. intros [E|[]]. discriminate E.
Defined.

(** * Further properties of the code *)

(** A zero count gives no positive fraction, whatever the row count. *)
Lemma pct_gt0_zero_frac (y : spec_float) : pct_gt0 (fdiv (float_of_Z (Z.of_nat 0)) y) = false.
Proof. destruct y as [[]|[]| |[]]; reflexivity. Qed.

(** ** Imputation *)

Lemma impute_loop_noop cs df log :
  (forall p, In p cs -> isnull_sum (column_values (fst p) df) = 0%nat) ->
  impute_loop cs df log = (df, log).
Proof.
  revert log; induction cs as [|[j [col d]] cs IH]; intros log H; [reflexivity|].
  cbn [impute_loop]. pose proof (H (j, (col, d)) (or_introl eq_refl)) as H0.
  simpl fst in H0. rewrite H0. simpl Nat.ltb. cbv iota.
  apply IH. intros p Hp. apply H. simpl; auto.
Qed.

Lemma impute_noop df log :
  (forall j col d, nth_error (columns df) j = Some (col, d) -> is_number d = true ->
     isnull_sum (column_values j df) = 0%nat) ->
  impute_missing_values df log = (df, log).
Proof.
  intros H. apply impute_loop_noop. intros [j [col d]] Hp.
  unfold numeric_cols in Hp. apply filter_In in Hp as [Hp Hd].
  apply In_enumerate in Hp as [_ Hp]. rewrite Nat.sub_0_r in Hp. simpl in *. eauto.
Qed.

(** Imputation on a frame whose numeric columns have no missing value
    returns the frame as it is and logs nothing. *)
Theorem impute_complete_frame_noop (df : frame) (log : transformation_log) :
  (forall j col d, nth_error (columns df) j = Some (col, d) -> is_number d = true ->
     isnull_sum (column_values j df) = 0%nat) ->
  impute_missing_values df log = (df, log).
Proof. apply impute_noop. Qed.

Definition complete_frame : frame :=
  mkFrame [("id", Int64); ("tag", Object)]
    [(0%Z, [Some (VInt 1); None]); (1%Z, [Some (VInt 2); Some (VStr "b")])].

Lemma impute_complete_frame_noop_witness :
  (forall j col d, nth_error (columns complete_frame) j = Some (col, d) -> is_number d = true ->
     isnull_sum (column_values j complete_frame) = 0%nat) /\
  impute_missing_values complete_frame ["x"] = (complete_frame, ["x"]).
Proof.
  assert (H : forall j col d, nth_error (columns complete_frame) j = Some (col, d) ->
                is_number d = true -> isnull_sum (column_values j complete_frame) = 0%nat).
  { intros [|[|[|j]]] col d Hj Hd; simpl in Hj; try discriminate;
      inversion Hj; subst; simpl in Hd; try discriminate; reflexivity. }
  split; [exact H|]. apply (impute_complete_frame_noop complete_frame ["x"] H).
Defined.

Lemma impute_fills_numeric df log j col d :
  frame_ok df = true -> nth_error (columns df) j = Some (col, d) -> is_number d = true ->
  ((0 < isnull_sum (column_values j df))%nat -> is_nan (col_mean (column_values j df)) = false) ->
  isnull_sum (column_values j (fst (impute_missing_values df log))) = 0%nat.
Proof.
  intros Hok Hj Hd Hmean. pose proof (impute_core df log Hok) as Hc.
  destruct (impute_missing_values df log) as [df' log']. simpl.
  destruct Hc as [_ [_ [Hv _]]]. rewrite (Hv j col d Hj), Hd. simpl.
  destruct (0 <? isnull_sum (column_values j df))%nat eqn:E.
  - apply Nat.ltb_lt in E. apply isnull_fill_num, Hmean, E.
  - apply Nat.ltb_ge in E. lia.
Qed.

(** Imputation is idempotent when every numeric column with a missing value
    has a mean that is not NaN: the second call changes nothing and logs
    nothing. *)
Theorem impute_idempotent (df : frame) (log : transformation_log) :
  frame_ok df = true ->
  (forall j col d, nth_error (columns df) j = Some (col, d) -> is_number d = true ->
     (0 < isnull_sum (column_values j df))%nat ->
     is_nan (col_mean (column_values j df)) = false) ->
  let (df1, log1) := impute_missing_values df log in
  impute_missing_values df1 log1 = (df1, log1).
Proof.
  intros Hok Hpres.
  pose proof (impute_fills_numeric df log) as Hf.
  pose proof (impute_core df log Hok) as Hc.
  destruct (impute_missing_values df log) as [df1 log1]. simpl in Hf.
  destruct Hc as [Hcols _].
  apply impute_noop. intros j col d Hj Hd. rewrite Hcols in Hj.
  apply (Hf j col d); auto. intros Hpos. apply (Hpres j col d Hj Hd Hpos).
Qed.

Lemma impute_idempotent_witness :
  frame_ok sample = true /\
  (forall j col d, nth_error (columns sample) j = Some (col, d) -> is_number d = true ->
     (0 < isnull_sum (column_values j sample))%nat ->
     is_nan (col_mean (column_values j sample)) = false) /\
  (let (df1, log1) := impute_missing_values sample [] in
   impute_missing_values df1 log1 = (df1, log1)).
Proof.
  assert (H : forall j col d, nth_error (columns sample) j = Some (col, d) -> is_number d = true ->
     (0 < isnull_sum (column_values j sample))%nat ->
     is_nan (col_mean (column_values j sample)) = false).
  { intros j col d Hj Hd Hpos. destruct j as [|[|[|[|j]]]]; simpl in Hj; try discriminate;
      inversion Hj; subst; simpl in *; try discriminate; try (vm_compute in Hpos; lia);
      vm_compute; reflexivity. }
  split; [reflexivity|]. split; [exact H|].
  apply (impute_idempotent sample []); [reflexivity | exact H].
Defined.

Lemma nth_error_map_fill v l i x :
  nth_error l i = Some (Some x) -> nth_error (map (fill_cell v) l) i = Some (Some x).
Proof.
  revert i; induction l as [|a l IH]; intros [|i] H; simpl in *; try discriminate.
  - inversion H; reflexivity.
  - apply IH; exact H.
Qed.

(** Imputation never alters a present value: every entry that was present in
    a column is present and equal afterwards. *)
Theorem impute_keeps_present_values (df : frame) (log : transformation_log) j col d i x :
  frame_ok df = true -> nth_error (columns df) j = Some (col, d) ->
  nth_error (column_values j df) i = Some (Some x) ->
  nth_error (column_values j (fst (impute_missing_values df log))) i = Some (Some x).
Proof.
  intros Hok Hj Hx. pose proof (impute_core df log Hok) as Hc.
  destruct (impute_missing_values df log) as [df' log']. simpl.
  destruct Hc as [_ [_ [Hv _]]]. rewrite (Hv j col d Hj).
  destruct (is_number d && _); auto. apply nth_error_map_fill. exact Hx.
Qed.

Lemma impute_keeps_present_values_witness :
  frame_ok sample = true /\ nth_error (columns sample) 1 = Some ("value", Float64) /\
  nth_error (column_values 1 sample) 3 = Some (Some (VFloat (fl 5 (-1)))) /\
  nth_error (column_values 1 (fst (impute_missing_values sample []))) 3
    = Some (Some (VFloat (fl 5 (-1)))).
Proof.
  split; [reflexivity|]. split; [reflexivity|]. split; [reflexivity|].
  apply (impute_keeps_present_values sample [] 1 "value" Float64 3); reflexivity.
Defined.

(** ** Duplicate removal *)

Lemma dedup_first_covers seen rs r :
  In r rs ->
  existsb (row_eqb (snd r)) seen = true \/
  exists r', In r' (dedup_first seen rs) /\ row_eqb (snd r) (snd r') = true.
Proof.
  revert seen; induction rs as [|[i x] t IH]; intros seen Hr; [contradiction|].
  simpl. destruct (existsb (row_eqb x) seen) eqn:Ex.
  - destruct Hr as [<-|Hr]; [left; exact Ex|].
    apply IH; exact Hr.
  - destruct Hr as [<-|Hr].
    + right. exists (i, x). split; [left; reflexivity | apply row_eqb_refl].
    + destruct (IH (x :: seen) Hr) as [Hs|[r' [Hin Heq]]].
      * simpl in Hs. destruct (row_eqb (snd r) x) eqn:Erx.
        -- right. exists (i, x). split; [left; reflexivity | exact Erx].
        -- left. exact Hs.
      * right. exists r'. split; [right; exact Hin | exact Heq].
Qed.

(** No row content is lost by [drop_duplicates]: every row of the input has
    an equal row in the output. *)
Theorem drop_duplicates_keeps_every_row (df : frame) (log : transformation_log) r :
  In r (rows df) ->
  exists r', In r' (rows (fst (drop_duplicates df log))) /\ row_eqb (snd r) (snd r') = true.
Proof.
  intros Hr. destruct (dedup_first_covers [] (rows df) r Hr) as [H|H];
    [discriminate | exact H].
Qed.

Lemma drop_duplicates_keeps_every_row_witness :
  In (2%Z, [Some (VInt 1); Some (VFloat (fl 10 0)); Some (VStr "a")]) (rows sample) /\
  exists r', In r' (rows (fst (drop_duplicates sample []))) /\
    row_eqb [Some (VInt 1); Some (VFloat (fl 10 0)); Some (VStr "a")] (snd r') = true.
Proof.
  assert (H : In (2%Z, [Some (VInt 1); Some (VFloat (fl 10 0)); Some (VStr "a")]) (rows sample))
    by (simpl; auto).
  split; [exact H|].
  exact (drop_duplicates_keeps_every_row sample [] _ H).
Defined.

Lemma distinct_from_split seen pre x post :
  distinct_from seen (pre ++ x :: post)%list ->
  existsb (row_eqb (snd x)) seen = false /\
  forall y, In y pre -> row_eqb (snd y) (snd x) = false.
Proof.
  revert seen; induction pre as [|[i y] pre IH]; intros seen H.
  - destruct x as [i x]. simpl in H. destruct H as [H _]. split; [exact H|].
    intros y [].
  - simpl in H. destruct H as [_ H]. apply IH in H as [H1 H2]. simpl in H1.
    apply orb_false_iff in H1 as [H1 H3]. split; [exact H3|].
    intros z [<-|Hz]; [simpl; rewrite row_eqb_sym; exact H1 | apply H2; exact Hz].
Qed.

(** The rows kept by [drop_duplicates] are pairwise distinct: no kept row
    equals a kept row before it. *)
Theorem drop_duplicates_rows_distinct (df : frame) (log : transformation_log) pre x post y :
  rows (fst (drop_duplicates df log)) = (pre ++ x :: post)%list -> In y pre ->
  row_eqb (snd y) (snd x) = false.
Proof.
  intros Hs Hy. pose proof (dedup_first_distinct [] (rows df)) as Hd.
  simpl in Hs. rewrite Hs in Hd.
  apply (proj2 (distinct_from_split [] pre x post Hd)). exact Hy.
Qed.

Lemma drop_duplicates_rows_distinct_witness :
  rows (fst (drop_duplicates sample [])) =
    ([(0%Z, [Some (VInt 1); Some (VFloat (fl 10 0)); Some (VStr "a")])] ++
    (1%Z, [Some (VInt 2); None; Some (VStr "b")]) ::
    [(3%Z, [Some (VInt 3); Some (VFloat (fl 5 (-1))); None])])%list /\
  row_eqb [Some (VInt 1); Some (VFloat (fl 10 0)); Some (VStr "a")]
          [Some (VInt 2); None; Some (VStr "b")] = false.
Proof.
  split; [reflexivity|].
  apply (drop_duplicates_rows_distinct sample []
           [(0%Z, [Some (VInt 1); Some (VFloat (fl 10 0)); Some (VStr "a")])]
           (1%Z, [Some (VInt 2); None; Some (VStr "b")])
           [(3%Z, [Some (VInt 3); Some (VFloat (fl 5 (-1))); None])]
           (0%Z, [Some (VInt 1); Some (VFloat (fl 10 0)); Some (VStr "a")]));
    [reflexivity | left; reflexivity].
Defined.

Lemma subseq_length {A} (l l' : list A) : subseq l l' -> (length l <= length l')%nat.
Proof. induction 1; simpl; lia. Qed.

(** [drop_duplicates] never adds rows and never empties a non-empty frame:
    the first row is always kept. *)
Theorem drop_duplicates_row_bounds (df : frame) (log : transformation_log) :
  (length (rows (fst (drop_duplicates df log))) <= length (rows df))%nat /\
  (rows df <> [] -> hd_error (rows (fst (drop_duplicates df log))) = hd_error (rows df)).
Proof.
  split.
  - apply subseq_length, dedup_first_subseq.
  - intros Hne. simpl. destruct (rows df) as [|[i r] t]; [congruence|]. reflexivity.
Qed.

(** ** Sequences of cleaning actions *)

(** Whatever cleaning boxes are ticked, in any order and any number of times,
    the columns (names and dtypes) stay as they are and every row keeps
    fitting them. *)
Theorem cleaning_keeps_schema (acts : list cleaning_action) (df : frame)
    (log : transformation_log) :
  frame_ok df = true ->
  columns (fst (run_actions acts (df, log))) = columns df /\
  frame_ok (fst (run_actions acts (df, log))) = true.
Proof.
  change df with (fst (df, log)) at 1 3. generalize (df, log) as s.
  induction acts as [|a acts IH]; intros s Hok; simpl; [auto|].
  destruct (IH (apply_action a s)) as [H1 H2]; [apply apply_action_ok; exact Hok|].
  split; [|exact H2]. rewrite H1.
  destruct a; simpl.
  - pose proof (impute_core (fst s) (snd s) Hok) as Hc.
    destruct (impute_missing_values (fst s) (snd s)) as [d l]. apply Hc.
  - reflexivity.
Qed.

Lemma cleaning_keeps_schema_witness :
  frame_ok sample = true /\
  columns (fst (run_actions [ImputeMissing; DropDuplicates; ImputeMissing] (sample, [])))
    = columns sample.
Proof.
  split; [reflexivity|].
  apply (cleaning_keeps_schema [ImputeMissing; DropDuplicates; ImputeMissing] sample []).
  reflexivity.
Defined.

Lemma drop_duplicates_row_bounds_witness :
  (length (rows (fst (drop_duplicates sample []))) <= length (rows sample))%nat /\
  hd_error (rows (fst (drop_duplicates sample []))) = hd_error (rows sample).
Proof.
  destruct (drop_duplicates_row_bounds sample []) as [H1 H2].
  split; [exact H1 | apply H2; discriminate].
Defined.

(** ** Ingestion *)

Lemma coerce_text_columns_spec py_str dc df1 :
  frame_ok df1 = true ->
  let res := coerce_text_columns py_str dc df1 in
  columns res = columns df1 /\
  (forall j col d, nth_error (columns df1) j = Some (col, d) ->
     column_values j res =
     if String.eqb (dtype_name d) "object" && negb (existsb (String.eqb col) dc)
     then map (as_text py_str) (column_values j df1) else column_values j df1).
Proof.
  intros Hok1. unfold coerce_text_columns.
  destruct (coerce_loop_spec py_str dc (object_cols df1) df1) as [Hc Hv].
  - unfold object_cols. apply NoDup_map_filter. rewrite enumerate_fst. apply seq_NoDup.
  - intros p Hp. apply object_cols_props; auto.
  - split; [exact Hc|]. intros j col d Hj. rewrite Hv.
    unfold object_cols. rewrite filter_filter_and.
    pose proof (existsb_enumerate_filter
      (fun p => String.eqb (dtype_name (snd (snd p))) "object"
                && negb (existsb (String.eqb (fst (snd p))) dc))
      0 (columns df1) j (col, d) Hj) as Hx.
    rewrite Nat.add_0_l in Hx. rewrite Hx. reflexivity.
Qed.

(** Loading fails exactly when one of the two parses fails, with that
    parse's exception; no partly loaded dataset comes out of a failure. *)
Theorem ingest_error_cases parse_csv py_str (f : upload) (e : py_exc) :
  ingest parse_csv py_str f = Raise e <->
  parse_csv (substring (upos f) (String.length (ubuf f)) (ubuf f)) None = Raise e \/
  exists df0,
    parse_csv (substring (upos f) (String.length (ubuf f)) (ubuf f)) None = Ret df0 /\
    parse_csv (ubuf f) (match date_columns_of df0 with [] => None | dc => Some dc end)
      = Raise e.
Proof.
  unfold ingest, read_csv.
  destruct (parse_csv (substring (upos f) (String.length (ubuf f)) (ubuf f)) None)
    as [df0|e0] eqn:E0; simpl.
  - split.
    + intros H. right. exists df0. split; [reflexivity|].
      destruct (date_columns_of df0) as [|c dcs]; simpl in H; rewrite substring_full in H;
        destruct (parse_csv (ubuf f) _); simpl in H; congruence.
    + intros [H|[df0' [H1 H2]]]; [discriminate|]. injection H1 as <-.
      destruct (date_columns_of df0) as [|c dcs]; simpl; rewrite substring_full;
        rewrite H2; reflexivity.
  - split.
    + intros H. left. injection H as ->. reflexivity.
    + intros [H|[df0' [H1 _]]]; [injection H as ->; reflexivity | discriminate].
Qed.

(** After loading, an [object] column whose name is not date-like holds no
    missing value (each cell went through [str]), so the readiness check
    never reports missing values for it. *)
Theorem ingest_text_columns_complete parse_csv py_str (f : upload) (df : frame)
    (notices : list notice) j col :
  (forall s h d, parse_csv s h = Ret d -> frame_ok d = true) ->
  ingest parse_csv py_str f = Ret (df, notices) ->
  nth_error (columns df) j = Some (col, Object) -> is_date_like col = false ->
  isnull_sum (column_values j df) = 0%nat /\ pct_gt0 (missing_frac j df) = false.
Proof.
  intros Hparse H Hj Hdl.
  assert (Hcol : isnull_sum (column_values j df) = 0%nat).
  { unfold ingest, read_csv in H.
    destruct (parse_csv (substring (upos f) (String.length (ubuf f)) (ubuf f)) None)
      as [df0|e] eqn:E0; simpl in H; [|discriminate].
    assert (Hn : existsb (String.eqb col) (date_columns_of df0) = false).
    { apply existsb_eqb_false. unfold date_columns_of. intros Hin.
      apply filter_In in Hin as [_ Hin]. congruence. }
    assert (Hfin : forall dc df1, frame_ok df1 = true ->
              existsb (String.eqb col) dc = false ->
              df = coerce_text_columns py_str dc df1 ->
              isnull_sum (column_values j df) = 0%nat).
    { intros dc df1 Hok1 Hdc ->.
      destruct (coerce_text_columns_spec py_str dc df1 Hok1) as [Hc Hv].
      rewrite Hc in Hj. rewrite (Hv j col Object Hj), Hdc. simpl.
      unfold isnull_sum, as_text. induction (column_values j df1); simpl; auto. }
    destruct (date_columns_of df0) as [|c dcs] eqn:Edc; simpl in H;
      rewrite substring_full in H.
    - destruct (parse_csv (ubuf f) None) as [df1|e] eqn:E1; simpl in H; [|discriminate].
      injection H as <- _. apply (Hfin [] df1); auto. eapply Hparse; eauto.
    - destruct (parse_csv (ubuf f) (Some (c :: dcs))) as [df1|e] eqn:E1;
        simpl in H; [|discriminate].
      injection H as <- _. apply (Hfin (c :: dcs) df1); auto. eapply Hparse; eauto. }
  split; [exact Hcol|].
  unfold missing_frac. rewrite Hcol. destruct (rows df); [reflexivity|].
  apply pct_gt0_zero_frac.
Qed.

Lemma ingest_text_columns_complete_witness :
  (forall s h d, toy_parser s h = Ret d -> frame_ok d = true) /\
  ingest toy_parser toy_str (mkUpload "Order_Date,code" 0)
    = Ret (coerce_text_columns toy_str ["Order_Date"] toy_csv,
           [Info "Date parsing applied to columns: Order_Date"]) /\
  nth_error (columns (coerce_text_columns toy_str ["Order_Date"] toy_csv)) 1
    = Some ("code", Object) /\
  is_date_like "code" = false /\
  isnull_sum (column_values 1 (coerce_text_columns toy_str ["Order_Date"] toy_csv)) = 0%nat /\
  pct_gt0 (missing_frac 1 (coerce_text_columns toy_str ["Order_Date"] toy_csv)) = false.
Proof.
  assert (Hp : forall s h d, toy_parser s h = Ret d -> frame_ok d = true).
  { intros s h d Hd. injection Hd as <-. reflexivity. }
  assert (Hi : ingest toy_parser toy_str (mkUpload "Order_Date,code" 0)
    = Ret (coerce_text_columns toy_str ["Order_Date"] toy_csv,
           [Info "Date parsing applied to columns: Order_Date"])) by reflexivity.
  assert (Hj : nth_error (columns (coerce_text_columns toy_str ["Order_Date"] toy_csv)) 1
    = Some ("code", Object)) by reflexivity.
  assert (Hd : is_date_like "code" = false) by reflexivity.
  split; [exact Hp|]. split; [exact Hi|]. split; [exact Hj|]. split; [exact Hd|].
  exact (ingest_text_columns_complete toy_parser toy_str _ _ _ 1 "code" Hp Hi Hj Hd).
Defined.

(** ** Readiness checks *)

Lemma dtype_name_object d : String.eqb (dtype_name d) "object" = true -> d = Object.
Proof. destruct d; simpl; try discriminate; auto. Qed.

Lemma dtype_name_datetime d :
  String.eqb (dtype_name d) "datetime64[ns]" = true -> d = DatetimeNs.
Proof. destruct d; simpl; try discriminate; auto. Qed.

Lemma In_enumerate_0 {A} (l : list A) j x : In (j, x) (enumerate 0 l) -> nth_error l j = Some x.
Proof. intros H. apply In_enumerate in H as [_ H]. rewrite Nat.sub_0_r in H. exact H. Qed.

(** Every readiness message has its cause in the frame or the task: a column
    with a positive share of missing values, an [object] column, a
    [datetime64[ns]] column, or one of the two tasks with a note. *)
Theorem check_ml_readiness_sound (df : frame) (ml_task m : string) :
  In m (check_ml_readiness df ml_task) ->
  (exists j col d pct, nth_error (columns df) j = Some (col, d) /\
     missing_frac j df = pct /\ pct_gt0 pct = true /\ m = missing_msg col pct) \/
  (exists col, In (col, Object) (columns df) /\ m = encoding_note col) \/
  (exists col, In (col, DatetimeNs) (columns df) /\ m = datetime_note col) \/
  (ml_task = "Decision Tree" /\ m = decision_tree_note) \/
  (ml_task = "Self-supervised Learning" /\ m = ssl_note).
Proof.
  unfold check_ml_readiness. intros H.
  apply in_app_or in H as [H|H]; [|apply in_app_or in H as [H|H]].
  - left. unfold missing_messages in H. apply in_flat_map in H as [[j [col d]] [Hp Hm]].
    cbn [fst snd] in Hm. destruct (pct_gt0 (missing_frac j df)) eqn:Eg; [|contradiction].
    destruct Hm as [<-|[]].
    exists j, col, d, (missing_frac j df). repeat split; auto.
    apply In_enumerate_0 in Hp. exact Hp.
  - right. unfold dtype_messages in H. apply in_flat_map in H as [[col d] [Hp Hm]].
    simpl in Hm. destruct (String.eqb (dtype_name d) "object") eqn:Eo.
    + left. apply dtype_name_object in Eo. subst d. destruct Hm as [<-|[]]. eauto.
    + destruct (String.eqb (dtype_name d) "datetime64[ns]") eqn:Et; [|contradiction].
      right; left. apply dtype_name_datetime in Et. subst d. destruct Hm as [<-|[]]. eauto.
  - right; right; right. unfold task_messages in H.
    destruct (String.eqb_spec ml_task "Decision Tree") as [->|_].
    + left. destruct H as [<-|[]]. auto.
    + destruct (String.eqb_spec ml_task "Self-supervised Learning") as [->|_]; [|contradiction].
      right. destruct H as [<-|[]]. auto.
Qed.

Lemma check_ml_readiness_sound_witness :
  In "Column 'value' has 25.0% missing values." (check_ml_readiness sample "Other") /\
  ((exists j col d pct, nth_error (columns sample) j = Some (col, d) /\
     missing_frac j sample = pct /\ pct_gt0 pct = true /\
     "Column 'value' has 25.0% missing values." = missing_msg col pct) \/
   (exists col, In (col, Object) (columns sample) /\
     "Column 'value' has 25.0% missing values." = encoding_note col) \/
   (exists col, In (col, DatetimeNs) (columns sample) /\
     "Column 'value' has 25.0% missing values." = datetime_note col) \/
   ("Other" = "Decision Tree" /\ "Column 'value' has 25.0% missing values." = decision_tree_note) \/
   ("Other" = "Self-supervised Learning" /\
     "Column 'value' has 25.0% missing values." = ssl_note)).
Proof.
  assert (H : In "Column 'value' has 25.0% missing values." (check_ml_readiness sample "Other"))
    by (vm_compute; auto).
  split; [exact H | exact (check_ml_readiness_sound sample "Other" _ H)].
Defined.

(** On a frame without rows (a header-only CSV) every missing share is NaN,
    the comparison [pct > 0] is false, and no missing-value message is
    produced. *)
Theorem check_ml_readiness_no_rows (df : frame) (ml_task : string) :
  rows df = [] ->
  check_ml_readiness df ml_task = (dtype_messages df ++ task_messages ml_task)%list.
Proof.
  intros H. unfold check_ml_readiness, missing_messages, missing_frac. rewrite H.
  simpl. induction (enumerate 0 (columns df)); simpl; auto.
Qed.

Definition header_only : frame := mkFrame [("price", Float64); ("city", Object)] [].

Lemma check_ml_readiness_no_rows_witness :
  rows header_only = [] /\
  check_ml_readiness header_only "Decision Tree" =
    ["Column 'city' is categorical/text type and may need encoding.";
     decision_tree_note].
Proof.
  split; [reflexivity|].
  rewrite (check_ml_readiness_no_rows header_only "Decision Tree" eq_refl). reflexivity.
Defined.

(** ** Exports *)

Lemma write_file_read p c s u s' :
  write_file p c s = (Ret u, s') ->
  read_file p s' = Some c /\
  (forall q, q <> p -> read_file q s' = read_file q s) /\
  cwd s' = cwd s /\ writable s' = writable s /\ fault s' = fault s.
Proof.
  unfold write_file. destruct (writable s p).
  - intros H. injection H as _ <-.
    unfold read_file; simpl. rewrite String.eqb_refl. repeat split; auto.
    intros q Hq. destruct (String.eqb_spec p q); [congruence | reflexivity].
  - destruct (fault s p); discriminate.
Qed.

(** A successful export writes its own file, at the path it reports, with
    the export's text (the CSV, the script, or the rendered report); every
    other file reads as before, and the working directory, the writable
    paths and the write faults stay the same. *)
Theorem export_writes_its_file lib to_csv (now : timestamp)
    (a : export_action) (st : app_state) (p : string) (s' : fs) :
  export_body lib to_csv now a st = (Ret p, s') ->
  p = export_path now a /\
  (exists txt, export_text lib to_csv now a st = Ret txt /\ read_file p s' = Some txt) /\
  (forall q, q <> p -> read_file q s' = read_file q (st_fs st)) /\
  cwd s' = cwd (st_fs st) /\ writable s' = writable (st_fs st) /\
  fault s' = fault (st_fs st).
Proof.
  destruct a; simpl; unfold export_csv, export_transformation_script, export_eda_report.
  - destruct (write_file _ _ _) as [[u|e] s1] eqn:E; simpl; intros H; [|discriminate].
    injection H as <- <-. apply write_file_read in E as (? & ? & ? & ? & ?).
    repeat split; eauto.
  - destruct (write_file _ _ _) as [[u|e] s1] eqn:E; simpl; intros H; [|discriminate].
    injection H as <- <-. apply write_file_read in E as (? & ? & ? & ? & ?).
    repeat split; eauto.
  - destruct (generate_eda_report _ _ _ _) as [html|e]; [|discriminate].
    destruct (write_file _ _ _) as [[u|e] s1] eqn:E; simpl; intros H; [|discriminate].
    injection H as <- <-. apply write_file_read in E as (? & ? & ? & ? & ?).
    repeat split; eauto.
Qed.

Definition demo_fs : fs :=
  mkFs "/app" [("templates/report_template.html", "<h1>{{ title }}</h1>")]
    (fun _ => true) (fun _ => OpenFails 13 "Permission denied").

Definition demo_libs : report_libs :=
  mkReportLibs (fun _ => Ret "<table/>") (fun src => Ret src)
    (fun tmpl title summary _ => Ret (tmpl ++ title ++ summary)).

Definition demo_now : timestamp := mkTimestamp "2024-01-01 00:00:00" "20240101_000000".

Lemma export_writes_its_file_witness :
  export_body demo_libs (fun _ => "id") demo_now ExportReport (mkApp sample [] demo_fs [])
    = (Ret "export/eda_report_20240101_000000.html",
       put_file "export/eda_report_20240101_000000.html"
         "<h1>{{ title }}</h1>EDA Report<table/>" demo_fs) /\
  read_file "export/eda_report_20240101_000000.html"
    (put_file "export/eda_report_20240101_000000.html"
       "<h1>{{ title }}</h1>EDA Report<table/>" demo_fs)
    = Some "<h1>{{ title }}</h1>EDA Report<table/>".
Proof.
  assert (H : export_body demo_libs (fun _ => "id") demo_now ExportReport
                (mkApp sample [] demo_fs [])
    = (Ret "export/eda_report_20240101_000000.html",
       put_file "export/eda_report_20240101_000000.html"
         "<h1>{{ title }}</h1>EDA Report<table/>" demo_fs)) by reflexivity.
  split; [exact H|].
  destruct (export_writes_its_file _ _ _ _ _ _ _ H) as [_ [[txt [Ht Hr]] _]].
  rewrite Hr. injection Ht as <-. reflexivity.
Defined.

(** ** The LLM buttons of [main] *)

(** What the LLM part of the page shows: [st.subheader], [st.write],
    [st.code] and the notices. *)
Inductive page_item :=
| Heading (s : string)
| Text (s : string)
| CodeBlock (code : string)
| Shown (n : notice).

Definition no_code_msg : string :=
  "No additional checks code available. Please click 'Get Additional Checks Suggestions' first.".

(** [if st.session_state.llm_code:] on a [str] or [None]. *)
Definition truthy_code (c : option string) : option string :=
  match c with
  | Some (String a s) => Some (String a s)
  | _ => None
  end.

(** [main]'s [except Exception as e] around the whole page. *)
Definition main_except {A} (r : py_result A) (k : A -> list page_item) : list page_item :=
  match r with
  | Ret a => k a
  | Raise e => [Shown (Error ("Error reading the CSV file: " ++ exc_str e))]
  end.

Section LlmButtons.
Variable chat_create : string -> string -> nat -> py_result string.
(** [exec(code_str, ns)] followed by [ns['additional_checks'](df)], with the
    notices it shows (its own [try] catches what it raises). *)
Variable exec_checks : string -> frame -> list notice.

(** The "Get LLM Cleaning Suggestions" button, followed by the rest of the
    page [rest]. *)
Definition suggestions_button (clicked : bool) (e : env) (summary ml_task : string)
    (rest : list page_item) : list page_item :=
  if clicked then
    main_except (get_cleaning_suggestions chat_create e summary ml_task)
      (fun suggestion => Heading "LLM Cleaning Suggestions" :: Text suggestion :: rest)
  else rest.

(** The "Get Additional Checks Suggestions" and "Run Additional Checks Code"
    buttons of one rerun, on the session's [llm_code]. *)
Definition checks_section (e : env) (summary ml_task : string) (df : frame)
    (get_clicked run_clicked : bool) (llm_code : option string)
    : py_result (option string * list page_item) :=
  r <- (if get_clicked then
          code <- get_additional_checks chat_create e summary ml_task ;;
          Ret (Some code, [CodeBlock code])
        else Ret (llm_code, [])) ;;
  let (llm_code', out) := r in
  if run_clicked then
    match truthy_code llm_code' with
    | Some code => Ret (llm_code', app out (map Shown (exec_checks code df)))
    | None => Ret (llm_code', app out [Shown (Error no_code_msg)])
    end
  else Ret (llm_code', out).

Definition checks_rerun (e : env) (summary ml_task : string) (df : frame)
    (clicks : bool * bool) (llm_code : option string) : option string * list page_item :=
  match checks_section e summary ml_task df (fst clicks) (snd clicks) llm_code with
  | Ret r => r
  | Raise ex => (llm_code, [Shown (Error ("Error reading the CSV file: " ++ exc_str ex))])
  end.

(** A session of reruns, from [st.session_state.llm_code = None]. *)
Fixpoint checks_reruns (e : env) (summary ml_task : string) (df : frame)
    (clicks : list (bool * bool)) (llm_code : option string)
    : option string * list (list page_item) :=
  match clicks with
  | [] => (llm_code, [])
  | c :: cs =>
      let (code', out) := checks_rerun e summary ml_task df c llm_code in
      let (final, outs) := checks_reruns e summary ml_task df cs code' in
      (final, out :: outs)
  end.
End LlmButtons.

Definition get_env_error : string :=
  "Error reading the CSV file: module 'os' has no attribute 'get_env'".

(** Clicking "Get LLM Cleaning Suggestions" ends the rerun with main's
    error notice: nothing of the page after the button (cleaning options,
    updated EDA, exports) is shown in that rerun. *)
Theorem suggestions_button_ends_page chat_create (e : env) (summary ml_task : string)
    (rest : list page_item) :
  suggestions_button chat_create true e summary ml_task rest = [Shown (Error get_env_error)].
Proof. reflexivity. Qed.

(** Over any sequence of reruns, starting from the initial [None], the
    generated checks code is never stored and never executed: a fetch ends
    the rerun with main's error notice, and "Run Additional Checks Code"
    then always reports that no code is available. *)
Theorem additional_checks_never_run chat_create exec_checks (e : env)
    (summary ml_task : string) (df : frame) (clicks : list (bool * bool)) :
  checks_reruns chat_create exec_checks e summary ml_task df clicks None =
  (None, map (fun c : bool * bool => if fst c then [Shown (Error get_env_error)]
                       else if snd c then [Shown (Error no_code_msg)] else []) clicks).
Proof.
  induction clicks as [|[g r] cs IH]; [reflexivity|].
  cbn [checks_reruns]. unfold checks_rerun, checks_section. cbn [fst snd].
  destruct g; cbn; [|destruct r; cbn]; rewrite IH; reflexivity.
Qed.

(** ** Date-column detection *)

Lemma py_lower_app a b : py_lower (a ++ b) = py_lower a ++ py_lower b.
Proof. induction a; simpl; f_equal; auto. Qed.

(** A column whose name contains "date" in any letter case, anywhere in the
    name, is a date column. *)
Theorem date_columns_any_case (df : frame) (a w b : string) (d : dtype) :
  In (a ++ w ++ b, d) (columns df) -> py_lower w = "date" ->
  In (a ++ w ++ b) (date_columns_of df).
Proof.
  intros Hin Hw. unfold date_columns_of. apply filter_In. split.
  - apply in_map_iff. exists (a ++ w ++ b, d). auto.
  - unfold is_date_like. rewrite !py_lower_app, Hw. apply py_contains_mid.
Qed.

Lemma date_columns_any_case_witness :
  In ("Order_" ++ "Date" ++ "", DatetimeNs) (columns toy_csv) /\
  py_lower "Date" = "date" /\
  In ("Order_" ++ "Date" ++ "") (date_columns_of toy_csv).
Proof.
  assert (H1 : In ("Order_" ++ "Date" ++ "", DatetimeNs) (columns toy_csv))
    by (left; reflexivity).
  assert (H2 : py_lower "Date" = "date") by reflexivity.
  split; [exact H1|]. split; [exact H2|].
  exact (date_columns_any_case toy_csv "Order_" "Date" "" DatetimeNs H1 H2).
Defined.
